(** * fit-doctor: the EDM credential lifecycle, embedded and verified

    A shallow embedding of the server routes that keep the EDM OAuth2
    credential alive:

    - [app/api/edm/refresh-all/route.ts]  (module [RefreshAll]),
    - the departments proxy route         (module [Departments]),
    - [app/api/edm/order-visit/route.ts]  (module [OrderVisit]).

    The routes are asynchronous TypeScript that talks to a database (Prisma),
    to the upstream EDM servers (fetch), to the clock (Date.now) and to the
    console.  All of these are threaded through an explicit [World]; a route
    is a function from worlds to a completion (a value or a thrown error)
    and a new world. *)

From Stdlib Require Import ZArith String Ascii List Bool Lia.
From stdpp Require Import base option strings list gmap pretty.

Open Scope string_scope.
Open Scope Z_scope.

(** ** JavaScript values *)

(** The fragment of JSON/JavaScript data the routes build and inspect.
    Objects keep their own keys in insertion order.  Arrays are left out:
    no payload built by these routes contains one. *)
#[local] Unset Elimination Schemes.
Inductive JsValue : Type :=
| JUndefined
| JNull
| JBool (b : bool)
| JNum (n : Z)
| JStr (s : string)
| JObj (fields : list (string * JsValue)).
#[local] Set Elimination Schemes.

(** Induction on values, with the hypothesis for every field of an object. *)
Fixpoint JsValue_ind (P : JsValue -> Prop)
    (Hundefined : P JUndefined) (Hnull : P JNull)
    (Hbool : forall b, P (JBool b)) (Hnum : forall n, P (JNum n))
    (Hstr : forall s, P (JStr s))
    (Hobj : forall fields, Forall (fun kv => P (snd kv)) fields -> P (JObj fields))
    (v : JsValue) {struct v} : P v :=
  match v with
  | JUndefined => Hundefined
  | JNull => Hnull
  | JBool b => Hbool b
  | JNum n => Hnum n
  | JStr s => Hstr s
  | JObj fields =>
      Hobj fields
        ((fix each (fs : list (string * JsValue)) : Forall (fun kv => P (snd kv)) fs :=
            match fs with
            | [] => List.Forall_nil _
            | kv :: rest =>
                @List.Forall_cons _ _ kv rest
                  (JsValue_ind P Hundefined Hnull Hbool Hnum Hstr Hobj (snd kv))
                  (each rest)
            end) fields)
  end.

(** JavaScript truthiness of a string: only the empty string is falsy. *)
Definition truthy_string (s : string) : bool :=
  match s with EmptyString => false | _ => true end.

(** Truthiness of a possibly missing string ([undefined] is falsy). *)
Definition truthy_opt (o : option string) : bool :=
  match o with Some s => truthy_string s | None => false end.

(** Truthiness of a possibly missing number: [undefined] and [0] are falsy. *)
Definition truthy_num (o : option Z) : bool :=
  match o with Some n => negb (n =? 0) | None => false end.

Definition truthy (v : JsValue) : bool :=
  match v with
  | JUndefined | JNull => false
  | JBool b => b
  | JNum n => negb (n =? 0)
  | JStr s => truthy_string s
  | JObj _ => true
  end.

(** [obj[key]]: the value bound to [key], [undefined] when there is none. *)
Fixpoint js_get (key : string) (fields : list (string * JsValue)) : JsValue :=
  match fields with
  | [] => JUndefined
  | (k, v) :: rest => if String.eqb k key then v else js_get key rest
  end.

(** [obj[key] = v]: overwrite in place, or append a new own key. *)
Fixpoint js_set (key : string) (v : JsValue) (fields : list (string * JsValue))
  : list (string * JsValue) :=
  match fields with
  | [] => [(key, v)]
  | (k, v0) :: rest =>
      if String.eqb k key then (k, v) :: rest else (k, v0) :: js_set key v rest
  end.

(** ** The data model (Prisma collections) *)

(** One stored OAuth2 credential (collection [edmAuth]).  Timestamps are
    milliseconds since the epoch. *)
Record EdmAuth : Type := mkEdmAuth {
  id : string;
  encryptedAccessToken : option string;
  accessTokenExpiresAt : option Z;
  encryptedRefreshToken : string;
  refreshTokenHash : string;
  lastRefreshedAt : option Z;
  nextRefreshAt : option Z;
  refreshFailureCount : Z;
  revoked : bool
}.

Record User : Type := mkUser {
  user_id : string;
  externalPatientId : JsValue
}.

Record EdmDoctorDepartment : Type := mkEdmDoctorDepartment {
  doctorExternalId : option Z;
  departmentExternalId : option Z;
  createdAt : Z
}.

(** ** The environment *)

(** What a [fetch] resolves to.  [json] is the body read as JSON, at the
    type [J] the caller destructures it to; [None] when the body is not
    JSON, in which case [.json()] and [JSON.parse] throw. *)
Inductive FetchResult (J : Type) : Type :=
| NetworkError (message : string)
| Response (status : Z) (text : string) (json : option J).
Arguments NetworkError {J} message.
Arguments Response {J} status text json.

(** The JSON body of the token endpoint, at the type of the OAuth2
    contract: [{ access_token?, refresh_token?, expires_in? }]. *)
Record TokenJson : Type := mkTokenJson {
  access_token : option string;
  refresh_token : option string;
  expires_in : option Z
}.

Inductive RequestBody : Type :=
| NoBody
| FormBody (params : list (string * string))
| JsonBody (v : JsValue).

Inductive Level : Type := LError | LWarn.

(** Everything a route does that is visible from outside, in order. *)
Inductive Event : Type :=
| EvFetch (url : string) (authorization : option string) (body : RequestBody)
| EvStatus (url : string) (status : Z)
| EvFindMany (take : nat)
| EvFindFirst (table : string)
| EvUpdate (table : string) (key : string)
| EvConsole (level : Level) (label : string) (args : list JsValue).

Record World : Type := mkWorld {
  edmAuth : list EdmAuth;
  user : list User;
  edmDoctorDepartment : list EdmDoctorDepartment;
  (** [Date.now()] *)
  clock : Z;
  (** number of initialisation vectors drawn so far by [encryptToken] *)
  rng : nat;
  (** what the upstream token endpoint will answer, call after call, each
      with the time the call takes *)
  tokenEndpoint : list (Z * FetchResult TokenJson);
  (** what the upstream EDM API will answer, call after call *)
  edmApi : list (Z * FetchResult JsValue);
  (** the events so far, oldest first *)
  trace : list Event
}.

Definition set_edmAuth (rows : list EdmAuth) (w : World) : World :=
  mkWorld rows (user w) (edmDoctorDepartment w) (clock w) (rng w)
          (tokenEndpoint w) (edmApi w) (trace w).

Definition set_user (rows : list User) (w : World) : World :=
  mkWorld (edmAuth w) rows (edmDoctorDepartment w) (clock w) (rng w)
          (tokenEndpoint w) (edmApi w) (trace w).

Definition set_clock (t : Z) (w : World) : World :=
  mkWorld (edmAuth w) (user w) (edmDoctorDepartment w) t (rng w)
          (tokenEndpoint w) (edmApi w) (trace w).

Definition set_rng (n : nat) (w : World) : World :=
  mkWorld (edmAuth w) (user w) (edmDoctorDepartment w) (clock w) n
          (tokenEndpoint w) (edmApi w) (trace w).

Definition set_tokenEndpoint (s : list (Z * FetchResult TokenJson)) (w : World) : World :=
  mkWorld (edmAuth w) (user w) (edmDoctorDepartment w) (clock w) (rng w)
          s (edmApi w) (trace w).

Definition set_edmApi (s : list (Z * FetchResult JsValue)) (w : World) : World :=
  mkWorld (edmAuth w) (user w) (edmDoctorDepartment w) (clock w) (rng w)
          (tokenEndpoint w) s (trace w).

Definition emit (e : Event) (w : World) : World :=
  mkWorld (edmAuth w) (user w) (edmDoctorDepartment w) (clock w) (rng w)
          (tokenEndpoint w) (edmApi w) (trace w ++ [e]).

(** [process.env] *)
Definition Env : Type := gmap string string.

(** [process.env.NAME ?? fallback] *)
Definition env_or (env : Env) (name fallback : string) : string :=
  default fallback (env !! name).

(** ** Asynchronous computations *)

(** How a JavaScript computation ends: with a value, or with a thrown
    [Error] of which only the message is ever read. *)
Inductive Completion (A : Type) : Type :=
| Return (a : A)
| Throw (message : string).
Arguments Return {A} a.
Arguments Throw {A} message.

Definition Async (A : Type) : Type := World -> Completion A * World.

Definition ret {A} (a : A) : Async A := fun w => (Return a, w).

Definition throw {A} (message : string) : Async A := fun w => (Throw message, w).

Definition bind {A B} (c : Async A) (k : A -> Async B) : Async B :=
  fun w =>
    match c w with
    | (Return a, w') => k a w'
    | (Throw m, w') => (Throw m, w')
    end.

(** [try { body } catch (err) { handler(err.message) }] *)
Definition try_catch {A} (body : Async A) (handler : string -> Async A) : Async A :=
  fun w =>
    match body w with
    | (Return a, w') => (Return a, w')
    | (Throw m, w') => handler m w'
    end.

Declare Scope async_scope.
Delimit Scope async_scope with async.
Notation "'let*' x ':=' c 'in' k" := (bind c (fun x => k))
  (at level 10, x name, c at level 100, k at level 200) : async_scope.
Notation "c ';;' k" := (bind c (fun _ => k))
  (at level 100, k at level 200, right associativity) : async_scope.
Open Scope async_scope.

(** A synchronous call that may throw. *)
Definition lift {A} (c : Completion A) : Async A := fun w => (c, w).

(** [Date.now()] *)
Definition Date_now : Async Z := fun w => (Return (clock w), w).

(** [console.error] / [console.warn] *)
Definition console (level : Level) (label : string) (args : list JsValue) : Async unit :=
  fun w => (Return tt, emit (EvConsole level label args) w).

(** ** The token cipher ([@/lib/edm-crypto]) *)

(** The cipher module is imported by the routes but is no part of them; it
    is taken as a parameter.  [encryptToken] draws a fresh initialisation
    vector on each call (its first argument counts the draws); with the key
    present it does not fail.  [decryptToken] throws on a ciphertext it
    cannot authenticate. *)
Class EdmCrypto : Type := {
  encryptToken : nat -> string -> string;
  decryptToken : string -> Completion string;
  hashToken : string -> string
}.

Record Resp (J : Type) : Type := mkResp {
  status : Z;
  text : string;
  json : option J
}.
Arguments mkResp {J} status text json.
Arguments status {J} r.
Arguments text {J} r.
Arguments json {J} r.

Section Effects.
Context `{EdmCrypto}.

(** [encryptToken(t)], drawing the next initialisation vector. *)
Definition encrypt (t : string) : Async string :=
  fun w => (Return (encryptToken (rng w) t), set_rng (S (rng w)) w).

(** ** fetch *)

(** [response.ok] *)
Definition ok {J} (r : Resp J) : bool := (200 <=? status r) && (status r <=? 299).

(** [await response.json()] *)
Definition read_json {J} (r : Resp J) : Async J :=
  match json r with
  | Some j => ret j
  | None => throw "Unexpected token in JSON"
  end.

(** [JSON.parse(text)] inside [try { ... } catch { body = { raw: text } }] *)
Definition parse_or_raw (r : Resp JsValue) : JsValue :=
  match json r with
  | Some j => j
  | None => JObj [("raw", JStr (text r))]
  end.

Definition answer {J} (url : string) (script : list (Z * FetchResult J))
    (rest : list (Z * FetchResult J) -> World -> World) (w : World)
  : Completion (Resp J) * World :=
  match script with
  | [] => (Throw "fetch failed", w)
  | (latency, r) :: later =>
      let w' := set_clock (clock w + latency) (rest later w) in
      match r with
      | NetworkError m => (Throw m, w')
      | Response st txt js => (Return (mkResp st txt js), emit (EvStatus url st) w')
      end
  end.

(** [await fetch(tokenUrl, { method: "POST", body: params, ... })] *)
Definition fetch_token (url : string) (params : list (string * string))
  : Async (Resp TokenJson) :=
  fun w =>
    let w1 := emit (EvFetch url None (FormBody params)) w in
    answer url (tokenEndpoint w1) set_tokenEndpoint w1.

(** [await fetch(url, { headers: { Authorization: ... }, body })] against
    the EDM API. *)
Definition fetch_api (url : string) (authorization : string) (body : RequestBody)
  : Async (Resp JsValue) :=
  fun w =>
    let w1 := emit (EvFetch url (Some authorization) body) w in
    answer url (edmApi w1) set_edmApi w1.

(** ** prisma.edmAuth *)

Definition find_row (key : string) (rows : list EdmAuth) : option EdmAuth :=
  List.find (fun r => String.eqb (id r) key) rows.

Fixpoint update_row (key : string) (f : EdmAuth -> EdmAuth) (rows : list EdmAuth)
  : option (list EdmAuth) :=
  match rows with
  | [] => None
  | r :: rest =>
      if String.eqb (id r) key then Some (f r :: rest)
      else option_map (cons r) (update_row key f rest)
  end.

(** [await prisma.edmAuth.update({ where: { id }, data })]: one row, one
    statement; throws when no row has that id. *)
Definition prisma_edmAuth_update (key : string) (data : EdmAuth -> EdmAuth) : Async unit :=
  fun w =>
    match update_row key data (edmAuth w) with
    | Some rows => (Return tt, emit (EvUpdate "edmAuth" key) (set_edmAuth rows w))
    | None => (Throw "Record to update not found", w)
    end.

Definition active (r : EdmAuth) : bool := negb (revoked r).

(** [await prisma.edmAuth.findMany({ where: { revoked: false }, take })] *)
Definition prisma_edmAuth_findMany (take : nat) : Async (list EdmAuth) :=
  fun w => (Return (firstn take (List.filter active (edmAuth w))), emit (EvFindMany take) w).

(** Descending order on [lastRefreshedAt], rows never refreshed last. *)
Definition newer (a b : EdmAuth) : bool :=
  match lastRefreshedAt a, lastRefreshedAt b with
  | Some x, Some y => y <? x
  | Some _, None => true
  | None, _ => false
  end.

Fixpoint most_recent (rows : list EdmAuth) : option EdmAuth :=
  match rows with
  | [] => None
  | r :: rest =>
      match most_recent rest with
      | Some b => if newer b r then Some b else Some r
      | None => Some r
      end
  end.

(** [await prisma.edmAuth.findFirst({ where: { revoked: false },
    orderBy: { lastRefreshedAt: "desc" } })] *)
Definition prisma_edmAuth_findFirst : Async (option EdmAuth) :=
  fun w => (Return (most_recent (List.filter active (edmAuth w))), emit (EvFindFirst "edmAuth") w).

(** The [data] of the update after a failed refresh:
    [{ refreshFailureCount: { increment: 1 }, nextRefreshAt: now + 1h }]. *)
Definition applyFailure (now : Z) (row : EdmAuth) : EdmAuth :=
  mkEdmAuth (id row) (encryptedAccessToken row) (accessTokenExpiresAt row)
            (encryptedRefreshToken row) (refreshTokenHash row) (lastRefreshedAt row)
            (Some (now + 60 * 60 * 1000)) (refreshFailureCount row + 1) (revoked row).

(** The [data] of the update after a successful refresh.  A field given as
    [undefined] ([None] here for [encAccess] and [expiresAt]) is left as it
    is in the row. *)
Definition applySuccess (encAccess : option string) (expiresAt : option Z)
    (encRefresh refreshHash : string) (lastRefreshed nextRefresh : Z) (row : EdmAuth)
  : EdmAuth :=
  mkEdmAuth (id row)
            (match encAccess with Some c => Some c | None => encryptedAccessToken row end)
            (match expiresAt with Some t => Some t | None => accessTokenExpiresAt row end)
            encRefresh refreshHash (Some lastRefreshed) (Some nextRefresh) 0 (revoked row).

(** The [URLSearchParams] of the refresh-token grant. *)
Definition grant_params (env : Env) (rawRefresh : string) : list (string * string) :=
  [("grant_type", "refresh_token");
   ("refresh_token", rawRefresh);
   ("client_id", env_or env "EDM_CLIENT_ID" "");
   ("client_secret", env_or env "EDM_CLIENT_SECRET" "")].

(** [process.env.EDM_URL ?? "https://api.edm.mydr.pl/secure/ext_api"] *)
Definition edm_base (env : Env) : string :=
  env_or env "EDM_URL" "https://api.edm.mydr.pl/secure/ext_api".

End Effects.

(** [NextResponse.json(body, { status })] *)
Record NextResponse (B : Type) : Type := mkNextResponse {
  res_status : Z;
  res_body : B
}.
Arguments mkNextResponse {B} res_status res_body.
Arguments res_status {B} n.
Arguments res_body {B} n.

(** The statuses a response with a body can be built with: [200] to [599],
    without the null-body statuses [204], [205] and [304]. *)
Definition body_status (status : Z) : bool :=
  (200 <=? status) && (status <=? 599)
  && negb ((status =? 204) || (status =? 205) || (status =? 304)).

(** [NextResponse.json(body, { status })] where the status is not a
    constant of the route.  The body is never null (it is JSON text), so
    the constructor throws on a status outside [200..599] (a [RangeError])
    and on a null-body status (a [TypeError]); the wording of the message
    is the runtime's. *)
Definition NextResponse_json {B} (body : B) (status : Z) : Async (NextResponse B) :=
  if body_status status then ret (mkNextResponse status body)
  else throw "Invalid response status code".

(** * app/api/edm/refresh-all/route.ts *)

Module RefreshAll.

Record Request : Type := mkRequest {
  (** [req.headers.get(name)], names in lower case *)
  headers : gmap string string
}.

(** One element of [results]: [{ id, ok, details?, nextRefreshAt? }]. *)
Record Outcome : Type := mkOutcome {
  o_id : string;
  o_ok : bool;
  o_details : option string;
  o_nextRefreshAt : option Z
}.

Inductive Body : Type :=
| ErrorBody (error : string) (details : option string)
| Processed (processed : nat) (results : list Outcome).

(** How far a run of the route got with the fuel it was given. *)
Inductive Run : Type :=
| Finished (response : NextResponse Body) (w : World)
| StillLooping (pages : nat) (results : list Outcome) (w : World).

Definition batchSize : nat := 100.

Section Route.
Context `{EdmCrypto}.
Variable env : Env.

Definition checkAuth (req : Request) : bool :=
  let auth := default "" (headers req !! "authorization") in
  let key := env_or env "ADMIN_REFRESH_KEY" "" in
  if String.eqb auth ("Bearer " +:+ key) then true
  else
    let hdr := headers req !! "x-admin-key" in
    if bool_decide (hdr = Some key) then true
    else if bool_decide (env !! "VERCEL" = Some "1")
            && bool_decide (headers req !! "x-vercel-cron" <> None) then true
    else false.

Definition refreshRecord (r : EdmAuth) : Async Outcome :=
  try_catch
    (let* rawRefresh := lift (decryptToken (encryptedRefreshToken r)) in
     let params := grant_params env rawRefresh in
     let tokenUrl := edm_base env +:+ "/o/token/" in
     let* call := fetch_token tokenUrl params in
     if negb (ok call) then
       let txt := text call in
       let* now := Date_now in
       prisma_edmAuth_update (id r) (applyFailure now) ;;
       ret (mkOutcome (id r) false (Some txt) None)
     else
       let* data := read_json call in
       let* encAccess :=
         match access_token data with
         | Some a => if truthy_string a
                     then let* c := encrypt a in ret (Some c)
                     else ret None
         | None => ret None
         end in
       let* refreshed :=
         match refresh_token data with
         | Some t => if truthy_string t
                     then let* c := encrypt t in ret (c, hashToken t)
                     else ret (encryptedRefreshToken r, refreshTokenHash r)
         | None => ret (encryptedRefreshToken r, refreshTokenHash r)
         end in
       let* now1 := Date_now in
       let expiresAt :=
         if truthy_num (expires_in data)
         then Some (now1 + default 0 (expires_in data) * 1000) else None in
       let* now2 := Date_now in
       let nextRefresh := now2 + 8 * 60 * 60 * 1000 in
       let* now3 := Date_now in
       prisma_edmAuth_update (id r)
         (applySuccess encAccess expiresAt (fst refreshed) (snd refreshed) now3 nextRefresh) ;;
       ret (mkOutcome (id r) true None (Some nextRefresh)))
    (fun message =>
       console LError "refresh-all item error" [JStr (id r); JStr message] ;;
       let* now := Date_now in
       prisma_edmAuth_update (id r) (applyFailure now) ;;
       ret (mkOutcome (id r) false (Some message) None)).

(** [for (const r of toRefresh) { results.push(await refreshRecord(r)) }] *)
Fixpoint for_of (toRefresh : list EdmAuth) (results : list Outcome)
  : Async (list Outcome) :=
  match toRefresh with
  | [] => ret results
  | r :: rest =>
      let* res := refreshRecord r in
      for_of rest (results ++ [res])
  end.

Definition server_error (message : string) (w : World) : Run :=
  Finished (mkNextResponse 500 (ErrorBody "server_error" (Some message)))
           (emit (EvConsole LError "refresh-all error:" [JStr message]) w).

(** The [while (true)] loop; [fuel] bounds the number of pages fetched and
    [pages] counts them. *)
Fixpoint while_true (fuel pages : nat) (results : list Outcome) (w : World) : Run :=
  match fuel with
  | O => StillLooping pages results w
  | S fuel' =>
      match prisma_edmAuth_findMany batchSize w with
      | (Throw m, w1) => server_error m w1
      | (Return toRefresh, w1) =>
          if (length toRefresh =? 0)%nat
          then Finished (mkNextResponse 200 (Processed (length results) results)) w1
          else
            match for_of toRefresh results w1 with
            | (Throw m, w2) => server_error m w2
            | (Return results', w2) =>
                if (length toRefresh <? batchSize)%nat
                then Finished (mkNextResponse 200 (Processed (length results') results')) w2
                else while_true fuel' (S pages) results' w2
            end
      end
  end.

Definition POST (fuel : nat) (req : Request) (w : World) : Run :=
  if negb (checkAuth req)
  then Finished (mkNextResponse 401 (ErrorBody "unauthorized" None)) w
  else while_true fuel 0 [] w.

End Route.
End RefreshAll.

(** * The request path: refreshAccessTokenIfNeeded *)

(** The departments route and the order-visit route each carry their own
    copy of [refreshAccessTokenIfNeeded]; the two copies differ in one
    string, the prefix of the error thrown when the token endpoint refuses.
    The body is embedded once, with that prefix as [failure]. *)
Section RequestPath.
Context `{EdmCrypto}.
Variable env : Env.

(** [rec.encryptedAccessToken && rec.accessTokenExpiresAt &&
     new Date(rec.accessTokenExpiresAt) > new Date(Date.now() + 60 * 1000)] *)
Definition still_valid (rec : EdmAuth) (now : Z) : bool :=
  truthy_opt (encryptedAccessToken rec)
  && match accessTokenExpiresAt rec with
     | Some expires => now + 60 * 1000 <? expires
     | None => false
     end.

Definition refreshAccessTokenIfNeeded_with (failure : string) (rec : EdmAuth)
  : Async string :=
  let* now0 := Date_now in
  if still_valid rec now0
  then lift (decryptToken (default "" (encryptedAccessToken rec)))
  else
    let* rawRefresh := lift (decryptToken (encryptedRefreshToken rec)) in
    let params := grant_params env rawRefresh in
    let tokenUrl := edm_base env +:+ "/o/token/" in
    let* r := fetch_token tokenUrl params in
    if negb (ok r) then
      let txt := text r in
      let* now := Date_now in
      prisma_edmAuth_update (id rec) (applyFailure now) ;;
      throw (failure +:+ txt)
    else
      let* data := read_json r in
      if negb (truthy_opt (access_token data))
      then throw "No access_token in refresh response"
      else
        let token := default "" (access_token data) in
        let* encAccess := encrypt token in
        let* now1 := Date_now in
        let expiresAt :=
          if truthy_num (expires_in data)
          then Some (now1 + default 0 (expires_in data) * 1000) else None in
        let* refreshed :=
          if truthy_opt (refresh_token data)
          then let* c := encrypt (default "" (refresh_token data)) in
               ret (c, hashToken (default "" (refresh_token data)))
          else ret (encryptedRefreshToken rec, refreshTokenHash rec) in
        let* now2 := Date_now in
        let* now3 := Date_now in
        prisma_edmAuth_update (id rec)
          (applySuccess (Some encAccess) expiresAt (fst refreshed) (snd refreshed)
                        now2 (now3 + 8 * 60 * 60 * 1000)) ;;
        ret token.

End RequestPath.

(** * The departments proxy route (GET /api/edm/departments) *)

Module Departments.
Section Route.
Context `{EdmCrypto}.
Variable env : Env.

Definition refreshAccessTokenIfNeeded : EdmAuth -> Async string :=
  refreshAccessTokenIfNeeded_with env "EDM token refresh failed: ".

Definition error_body (error : string) (details : option string) : JsValue :=
  match details with
  | Some d => JObj [("error", JStr error); ("details", JStr d)]
  | None => JObj [("error", JStr error)]
  end.

Definition handler : Async (NextResponse JsValue) :=
  let* rec := prisma_edmAuth_findFirst in
  match rec with
  | None => ret (mkNextResponse 404 (error_body "No EDM credentials configured" None))
  | Some rec =>
      let* got :=
        try_catch
          (let* t := refreshAccessTokenIfNeeded rec in ret (inl t))
          (fun message =>
             console LError "Failed to refresh access token:" [JStr message] ;;
             ret (inr (mkNextResponse 502
                         (error_body "failed_to_get_access_token" (Some message))))) in
      match got with
      | inr response => ret response
      | inl accessToken =>
          let url := edm_base env +:+ "/departments/" in
          let* resp := fetch_api url ("Bearer " +:+ accessToken) NoBody in
          let body := parse_or_raw resp in
          NextResponse_json body (status resp)
      end
  end.

Definition GET : World -> NextResponse JsValue * World :=
  fun w =>
    match handler w with
    | (Return response, w') => (response, w')
    | (Throw message, w') =>
        (mkNextResponse 500 (error_body "server_error" (Some message)),
         emit (EvConsole LError "GET /api/edm/departments error:" [JStr message]) w')
    end.

End Route.
End Departments.

(** * app/api/edm/order-visit/route.ts *)

Module OrderVisit.

(** The JSON body of the request, at the type the route documents; a field
    that is missing is [None]. *)
Record Body : Type := mkBody {
  userId : option string;
  name : option string;
  surname : option string;
  email : option string;
  pesel : option string;
  date_of_birth : option string;
  telephone : option string;
  visitDate : option string
}.

Record Request : Type := mkRequest {
  (** [await req.json()]; [None] when the body is not JSON *)
  req_json : option Body
}.

(** ** parsePesel *)

Definition is_digit (c : ascii) : bool :=
  (48 <=? nat_of_ascii c)%nat && (nat_of_ascii c <=? 57)%nat.

Definition digit (c : ascii) : Z := Z.of_nat (nat_of_ascii c) - 48.

Fixpoint all_digits (s : string) : bool :=
  match s with
  | EmptyString => true
  | String c rest => is_digit c && all_digits rest
  end.

(** [parseInt(s.slice(i, i + 2), 10)] on a string of digits *)
Definition parseInt2 (s : string) (i : nat) : Z :=
  match String.get i s, String.get (S i) s with
  | Some a, Some b => 10 * digit a + digit b
  | _, _ => 0
  end.

(** [parseInt(s.charAt(i), 10)] on a string of digits *)
Definition parseInt1 (s : string) (i : nat) : Z :=
  match String.get i s with
  | Some a => digit a
  | None => 0
  end.

(** [String(n).padStart(2, "0")] *)
Definition pad2 (n : Z) : string :=
  let s := pretty n in
  if (String.length s <? 2)%nat then "0" +:+ s else s.

Record Parsed : Type := mkParsed {
  dateOfBirth : option string;
  sex : option string
}.

Definition parsePesel (pesel : string) : Parsed :=
  if negb ((String.length pesel =? 11)%nat && all_digits pesel) then mkParsed None None
  else
    let year := parseInt2 pesel 0 in
    let month := parseInt2 pesel 2 in
    let day := parseInt2 pesel 4 in
    let century : option (Z * Z) :=
      if (1 <=? month) && (month <=? 12) then Some (1900 + year, month)
      else if (21 <=? month) && (month <=? 32) then Some (2000 + year, month - 20)
      else if (41 <=? month) && (month <=? 52) then Some (2100 + year, month - 40)
      else if (61 <=? month) && (month <=? 72) then Some (2200 + year, month - 60)
      else if (81 <=? month) && (month <=? 92) then Some (1800 + year, month - 80)
      else None in
    match century with
    | None => mkParsed None None
    | Some (fullYear, month) =>
        let mm := pad2 month in
        let dd := pad2 day in
        let dateOfBirth := pretty fullYear +:+ "-" +:+ mm +:+ "-" +:+ dd in
        let sexDigit := parseInt1 pesel 9 in
        let sex := if sexDigit mod 2 =? 1 then "Mężczyzna" else "Kobieta" in
        mkParsed (Some dateOfBirth) (Some sex)
    end.

(** ** removeEmpty *)

(** The source prunes the object in place and returns it; the payload it is
    applied to is freshly built and shares no object with anything else, so
    the pruned value is all there is to it. *)
Fixpoint removeEmpty (obj : JsValue) : JsValue :=
  match obj with
  | JObj fields =>
      JObj ((fix each (keys : list (string * JsValue)) : list (string * JsValue) :=
               match keys with
               | [] => []
               | (key, val) :: rest =>
                   match val with
                   | JStr EmptyString | JNull | JUndefined => each rest
                   | JObj _ =>
                       match removeEmpty val with
                       | JObj [] => each rest
                       | val' => (key, val') :: each rest
                       end
                   | _ => (key, val) :: each rest
                   end
               end) fields)
  | _ => obj
  end.

(** The own keys [removeEmpty] leaves in an object with the keys [fields]. *)
Definition removeEmpty_keys (fields : list (string * JsValue)) : list (string * JsValue) :=
  match removeEmpty (JObj fields) with
  | JObj kept => kept
  | _ => []
  end.

(** ** buildPatientPayload *)

Record PatientInput : Type := mkPatientInput {
  in_name : string;
  in_surname : string;
  in_email : option string;
  in_pesel : option string;
  in_date_of_birth : option string;
  in_telephone : option string
}.

Definition empty_address : JsValue :=
  JObj [("country", JStr "PL"); ("street", JStr ""); ("street_number", JStr "");
        ("flat_number", JStr ""); ("postal_code", JStr ""); ("city", JStr "");
        ("province", JStr "")].

Definition or_null (o : option string) : JsValue :=
  match o with Some s => JStr s | None => JNull end.

Definition buildPatientPayload (input : PatientInput) : JsValue :=
  let payload0 :=
    [("name", JStr (in_name input));
     ("surname", JStr (in_surname input));
     ("telephone", or_null (in_telephone input));
     ("second_telephone", JNull);
     ("country", JStr "PL");
     ("nfz", JNull);
     ("rights", JNull);
     ("residence_address", empty_address);
     ("registration_address", empty_address);
     ("blood_type", JStr "N");
     ("active", JBool true)] in
  let payload1 :=
    if truthy_opt (in_email input)
    then js_set "email" (or_null (in_email input)) payload0 else payload0 in
  let payload2 :=
    match in_pesel input with
    | Some p =>
        if truthy_string p then
          let a := js_set "pesel" (JStr p) payload1 in
          let parsed := parsePesel p in
          let b :=
            if truthy_opt (dateOfBirth parsed) && negb (truthy_opt (in_date_of_birth input))
            then js_set "date_of_birth" (or_null (dateOfBirth parsed)) a else a in
          if truthy_opt (sex parsed) then js_set "sex" (or_null (sex parsed)) b else b
        else payload1
    | None => payload1
    end in
  let payload3 :=
    if truthy_opt (in_date_of_birth input)
    then js_set "date_of_birth" (or_null (in_date_of_birth input)) payload2 else payload2 in
  let payload4 :=
    if negb (truthy (js_get "sex" payload3))
    then js_set "sex" (JStr "Nieznana") payload3 else payload3 in
  removeEmpty (JObj payload4).

(** ** POST *)

(** [String(v)] *)
Definition js_String (v : JsValue) : string :=
  match v with
  | JUndefined => "undefined"
  | JNull => "null"
  | JBool true => "true"
  | JBool false => "false"
  | JNum n => pretty n
  | JStr s => s
  | JObj _ => "[object Object]"
  end.

(** [v.key]: throws on [null] and [undefined], is [undefined] on the other
    primitives. *)
Definition member (v : JsValue) (key : string) : Completion JsValue :=
  match v with
  | JObj fields => Return (js_get key fields)
  | JNull | JUndefined => Throw ("Cannot read properties of null (reading '" +:+ key +:+ "')")
  | _ => Return JUndefined
  end.

(** [await prisma.user.findUnique({ where: { id } })] *)
Definition prisma_user_findUnique (key : string) : Async (option User) :=
  fun w => (Return (List.find (fun u => String.eqb (user_id u) key) (user w)),
            emit (EvFindFirst "user") w).

Fixpoint update_user (key : string) (v : JsValue) (rows : list User) : option (list User) :=
  match rows with
  | [] => None
  | u :: rest =>
      if String.eqb (user_id u) key
      then Some (mkUser (user_id u)
                        (match v with JUndefined => externalPatientId u | _ => v end) :: rest)
      else option_map (cons u) (update_user key v rest)
  end.

(** [await prisma.user.update({ where: { id }, data: { externalPatientId } })] *)
Definition prisma_user_update (key : string) (v : JsValue) : Async unit :=
  fun w =>
    match update_user key v (user w) with
    | Some rows => (Return tt, emit (EvUpdate "user" key) (set_user rows w))
    | None => (Throw "Record to update not found", w)
    end.

Fixpoint latest (rows : list EdmDoctorDepartment) : option EdmDoctorDepartment :=
  match rows with
  | [] => None
  | r :: rest =>
      match latest rest with
      | Some b => if createdAt r <? createdAt b then Some b else Some r
      | None => Some r
      end
  end.

(** [await prisma.edmDoctorDepartment.findFirst({ orderBy: { createdAt: "desc" } })] *)
Definition prisma_edmDoctorDepartment_findFirst : Async (option EdmDoctorDepartment) :=
  fun w => (Return (latest (edmDoctorDepartment w)), emit (EvFindFirst "edmDoctorDepartment") w).

Definition json_error (status : Z) (error : string) : NextResponse JsValue :=
  mkNextResponse status (JObj [("error", JStr error)]).

(** The body of an answer that reports an upstream refusal. *)
Definition refusal (step : string) (status : Z) (body : JsValue) : JsValue :=
  JObj [("ok", JBool false); ("step", JStr step); ("status", JNum status); ("body", body)].

Section Route.
Context `{EdmCrypto}.
Variable env : Env.
(** [new Date(t).toISOString().slice(0, 10)] *)
Variable isoDate : Z -> string.

Definition refreshAccessTokenIfNeeded : EdmAuth -> Async string :=
  refreshAccessTokenIfNeeded_with env "EDM refresh failed: ".

Definition handler (req : Request) : Async (NextResponse JsValue) :=
  let* body :=
    match req_json req with
    | Some b => ret b
    | None => throw "Unexpected end of JSON input"
    end in
  if negb (truthy_opt (userId body)) then ret (json_error 400 "userId is required")
  else if negb (truthy_opt (name body)) || negb (truthy_opt (surname body))
  then ret (json_error 400 "name and surname required")
  else
  let uid := default "" (userId body) in
  let* found := prisma_user_findUnique uid in
  match found with
  | None => ret (json_error 404 "user_not_found")
  | Some u =>
  let* rec := prisma_edmAuth_findFirst in
  match rec with
  | None => ret (json_error 404 "No EDM credentials configured")
  | Some rec =>
  let* got :=
    try_catch
      (let* t := refreshAccessTokenIfNeeded rec in ret (inl t))
      (fun message =>
         console LError "Failed to get access token:" [JStr message] ;;
         ret (inr (mkNextResponse 502
                     (JObj [("error", JStr "failed_to_get_access_token");
                            ("details", JStr message)])))) in
  match got with
  | inr response => ret response
  | inl accessToken =>
  let externalPatientId0 :=
    match externalPatientId u with JUndefined => JNull | v => v end in
  let* patient :=
    if negb (truthy externalPatientId0) then
      let patientPayload :=
        buildPatientPayload
          (mkPatientInput (default "" (name body)) (default "" (surname body))
                          (email body) (pesel body) (date_of_birth body) (telephone body)) in
      let* createResp :=
        fetch_api (edm_base env +:+ "/patients/") ("Bearer " +:+ accessToken)
                  (JsonBody patientPayload) in
      let status := status createResp in
      let parsed := parse_or_raw createResp in
      if negb (ok createResp) then
        console LWarn "EDM create patient failed:" [JNum status; parsed] ;;
        ret (inr (mkNextResponse 200 (refusal "create_patient" status parsed)))
      else
        let* newId := lift (member parsed "id") in
        prisma_user_update uid newId ;;
        ret (inl newId)
    else ret (inl externalPatientId0) in
  match patient with
  | inr response => ret response
  | inl externalPatientId =>
  let* edmCfg := prisma_edmDoctorDepartment_findFirst in
  match edmCfg with
  | None => ret (json_error 400 "no_edm_doctor_department_configured")
  | Some edmCfg =>
  if negb (truthy_num (doctorExternalId edmCfg))
     || negb (truthy_num (departmentExternalId edmCfg))
  then ret (json_error 400 "doctor or office not configured")
  else
  let* now := Date_now in
  let visitDateFinal := default (isoDate now) (visitDate body) in
  let visitPayload :=
    JObj [("patient", JStr (js_String externalPatientId));
          ("doctor", JStr (pretty (default 0 (doctorExternalId edmCfg))));
          ("office", JStr (pretty (default 0 (departmentExternalId edmCfg))));
          ("date", JStr visitDateFinal)] in
  let* visitResp :=
    fetch_api (edm_base env +:+ "/visits/") ("Bearer " +:+ accessToken)
              (JsonBody visitPayload) in
  let vStatus := status visitResp in
  let vParsed := parse_or_raw visitResp in
  if negb (ok visitResp) then
    console LWarn "EDM create visit failed:" [JNum vStatus; vParsed] ;;
    ret (mkNextResponse 200 (refusal "create_visit" vStatus vParsed))
  else
    ret (mkNextResponse 200
           (JObj [("ok", JBool true); ("patientId", externalPatientId); ("visit", vParsed)]))
  end end end end end.

Definition POST (req : Request) : World -> NextResponse JsValue * World :=
  fun w =>
    match handler req w with
    | (Return response, w') => (response, w')
    | (Throw message, w') =>
        (mkNextResponse 500
           (JObj [("error", JStr "server_error"); ("details", JStr message)]),
         emit (EvConsole LError "order-visit error:" [JStr message]) w')
    end.

End Route.
End OrderVisit.

(** * Observations *)

(** The number of outbound HTTP calls in a trace. *)
Definition fetches (events : list Event) : nat :=
  length (List.filter (fun e => match e with EvFetch _ _ _ => true | _ => false end) events).

(** The number of pages the sweep asked the store for. *)
Definition page_fetches (events : list Event) : nat :=
  length (List.filter (fun e => match e with EvFindMany _ => true | _ => false end) events).



(** A value that a pruned payload may bind a key to: not the empty string,
    not [null], not [undefined], not an empty object, and so at every
    depth. *)
Fixpoint populated (v : JsValue) : bool :=
  match v with
  | JUndefined | JNull => false
  | JStr s => truthy_string s
  | JObj fields =>
      match fields with [] => false | _ => true end
      && (fix all (fs : list (string * JsValue)) : bool :=
            match fs with
            | [] => true
            | (_, x) :: rest => populated x && all rest
            end) fields
  | _ => true
  end.

(** Every key of the payload, at any depth, is bound to a populated value. *)
Definition sparse (payload : JsValue) : bool :=
  match payload with
  | JObj fields => forallb (fun kv => populated (snd kv)) fields
  | _ => true
  end.

(** [payload[key]] for a payload that is an object. *)
Definition payload_field (key : string) (payload : JsValue) : JsValue :=
  match payload with
  | JObj fields => js_get key fields
  | _ => JUndefined
  end.

(** What a key is bound to after [removeEmpty], given what it was bound to
    before ([undefined]: the key is not there). *)
Definition pruned (v : JsValue) : JsValue :=
  match v with
  | JStr EmptyString | JNull | JUndefined => JUndefined
  | JObj _ =>
      match OrderVisit.removeEmpty v with
      | JObj [] => JUndefined
      | v' => v'
      end
  | _ => v
  end.

(** What identifies a row and decides whether the sweep selects it. *)
Definition selection (rows : list EdmAuth) : list (string * bool) :=
  map (fun r => (id r, revoked r)) rows.

(** Some row of the store has the id [key]. *)
Definition stored (key : string) (rows : list EdmAuth) : Prop :=
  In key (map id rows).

(** What a refresh attempt leaves alone: which credentials there are and
    which of them are revoked, the other collections, the replies the EDM
    API has in store, and the number of pages asked of the store.  It may
    change the token fields of credentials, the clock, the cipher's draws,
    the token endpoint's replies and the rest of the trace. *)
Record frame (w w' : World) : Prop := mkFrame {
  frame_selection : selection (edmAuth w') = selection (edmAuth w);
  frame_user : user w' = user w;
  frame_edmDoctorDepartment : edmDoctorDepartment w' = edmDoctorDepartment w;
  frame_edmApi : edmApi w' = edmApi w;
  frame_pages : page_fetches (trace w') = page_fetches (trace w)
}.

(** A computation that stays within the frame, however it ends. *)
Definition steady {A} (c : Async A) : Prop :=
  forall w, frame w (snd (c w)).

(** An update that writes neither the id nor the revocation flag. *)
Definition keeps_selection (f : EdmAuth -> EdmAuth) : Prop :=
  forall r, id (f r) = id r /\ revoked (f r) = revoked r.

(** The request carries the configured admin secret, in one of the two
    places the sweep looks for it. *)
Definition presents_secret (env : Env) (req : RefreshAll.Request) : Prop :=
  let key := env_or env "ADMIN_REFRESH_KEY" "" in
  RefreshAll.headers req !! "authorization" = Some ("Bearer " +:+ key)
  \/ RefreshAll.headers req !! "x-admin-key" = Some key.

(** The request is a scheduled call of the hosting platform. *)
Definition vercel_cron (env : Env) (req : RefreshAll.Request) : Prop :=
  env !! "VERCEL" = Some "1" /\ RefreshAll.headers req !! "x-vercel-cron" <> None.

(** * Test fixtures *)

Fixpoint after_colon (s : string) : option string :=
  match s with
  | EmptyString => None
  | String c rest => if Ascii.eqb c ":" then Some rest else after_colon rest
  end.

(** A stand-in cipher for running the routes on concrete worlds: the
    ciphertext is the draw number, a colon and the plaintext; a ciphertext
    without a colon does not authenticate. *)
Definition demo_crypto : EdmCrypto := {|
  encryptToken n t := pretty (Z.of_nat n) +:+ ":" +:+ t;
  decryptToken c :=
    match after_colon c with
    | Some t => Return t
    | None => Throw "Unsupported state or unable to authenticate data"
    end;
  hashToken t := "sha256(" +:+ t +:+ ")"
|}.

Definition demo_env : Env :=
  {[ "ADMIN_REFRESH_KEY" := "s3cret"; "EDM_CLIENT_ID" := "fit-doctor" ]}.


(** A credential last refreshed long ago, whose access token has expired. *)
Definition stale (key : string) : EdmAuth :=
  mkEdmAuth key (Some "0:old-access") (Some 1000) "0:refresh-1" "sha256(refresh-1)"
            (Some 0) (Some 500) 2 false.

(** The same credential with a refresh token that no longer authenticates. *)
Definition corrupted (key : string) : EdmAuth :=
  mkEdmAuth key (Some "0:old-access") (Some 1000) "garbage" "sha256(refresh-1)"
            (Some 0) (Some 500) 2 false.

Definition world_of (rows : list EdmAuth) (answers : list (Z * FetchResult TokenJson)) : World :=
  mkWorld rows [] [] 1000000 7 answers [] [].

(** [n] credentials, [cred-n] down to [cred-1]. *)
Fixpoint credentials (n : nat) : list EdmAuth :=
  match n with
  | O => []
  | S m => stale ("cred-" +:+ pretty (Z.of_nat n)) :: credentials m
  end.

Definition granted (access : string) (refresh : option string) (expires : option Z)
  : Z * FetchResult TokenJson :=
  (250, Response 200 "{...}" (Some (mkTokenJson (Some access) refresh expires))).

Definition refused (st : Z) (body : string) : Z * FetchResult TokenJson :=
  (250, Response st body None).

(** A credential whose access token is good for a long while yet. *)
Definition live (key : string) : EdmAuth :=
  mkEdmAuth key (Some "3:live-access") (Some 99000000) "0:refresh-1" "sha256(refresh-1)"
            (Some 900000) (Some 29700000) 0 false.

(** A credential that has been revoked. *)
Definition retired (key : string) : EdmAuth :=
  mkEdmAuth key (Some "3:live-access") (Some 99000000) "0:refresh-1" "sha256(refresh-1)"
            (Some 900000) (Some 29700000) 0 true.

(** A credential whose access token is good by its date but does not
    authenticate. *)
Definition garbled (key : string) : EdmAuth :=
  mkEdmAuth key (Some "garbage") (Some 99000000) "0:refresh-1" "sha256(refresh-1)"
            (Some 900000) (Some 29700000) 0 false.

(** A clinic with one credential, one user the EDM does not know yet, and
    a doctor and an office configured. *)
Definition clinic (rows : list EdmAuth) (answers : list (Z * FetchResult TokenJson))
    (api : list (Z * FetchResult JsValue)) : World :=
  mkWorld rows [mkUser "u1" JNull] [mkEdmDoctorDepartment (Some 5) (Some 9) 1]
          1000000 7 answers api [].

Definition visit_request : OrderVisit.Request :=
  OrderVisit.mkRequest
    (Some (OrderVisit.mkBody (Some "u1") (Some "Jan") (Some "Kowalski") None
                             (Some "44051401359") None None (Some "2026-01-15"))).

Definition epoch_day (t : Z) : string := "1970-01-01".

Definition admin_request : RefreshAll.Request :=
  RefreshAll.mkRequest {[ "authorization" := "Bearer s3cret" ]}.


(** * Verification *)

Open Scope list_scope.

(** ** The store *)

Lemma stored_selection (key : string) (a b : list EdmAuth) :
  selection a = selection b -> stored key a -> stored key b.
Proof.
  unfold stored, selection. intros E.
  assert (M : map id a = map id b).
  { apply (f_equal (map fst)) in E. rewrite !map_map in E. exact E. }
  now rewrite M.
Qed.

Lemma active_selection (a b : list EdmAuth) :
  selection a = selection b ->
  map id (List.filter active a) = map id (List.filter active b).
Proof.
  unfold selection. revert b.
  induction a as [|x a IH]; intros [|y b] E; simpl in E; try discriminate; auto.
  injection E as Ei Er Et. simpl.
  replace (active x) with (active y) by (unfold active; now rewrite Er).
  destruct (active y); simpl; [rewrite Ei; f_equal|]; auto.
Qed.

Lemma active_count (a b : list EdmAuth) :
  selection a = selection b ->
  length (List.filter active a) = length (List.filter active b).
Proof.
  intros E. apply active_selection in E.
  apply (f_equal (@length string)) in E. now rewrite !length_map in E.
Qed.

Lemma update_row_stored (key : string) (f : EdmAuth -> EdmAuth) (rows : list EdmAuth) :
  stored key rows -> exists rows', update_row key f rows = Some rows'.
Proof.
  unfold stored. induction rows as [|r rows IH]; simpl; [easy|].
  intros [E | I].
  - subst key. rewrite String.eqb_refl. eauto.
  - destruct (String.eqb (id r) key); [eauto|].
    destruct (IH I) as [rows' ->]. simpl. eauto.
Qed.

Lemma update_row_none (key : string) (f : EdmAuth -> EdmAuth) (rows : list EdmAuth) :
  ~ stored key rows -> update_row key f rows = None.
Proof.
  unfold stored. induction rows as [|r rows IH]; simpl; [easy|].
  intros N. destruct (String.eqb_spec (id r) key) as [E | _].
  - destruct N. now left.
  - rewrite IH; [reflexivity|]. intros I. apply N. now right.
Qed.

Lemma update_row_selection (key : string) (f : EdmAuth -> EdmAuth) (rows rows' : list EdmAuth) :
  keeps_selection f -> update_row key f rows = Some rows' ->
  selection rows' = selection rows.
Proof.
  intros K. unfold selection. revert rows'.
  induction rows as [|r rows IH]; simpl; intros rows' U; [discriminate|].
  destruct (String.eqb (id r) key).
  - injection U as <-. simpl. destruct (K r) as [-> ->]. reflexivity.
  - destruct (update_row key f rows) as [l|]; [|discriminate].
    injection U as <-. simpl. f_equal. now apply IH.
Qed.

Lemma find_row_updated (key : string) (f : EdmAuth -> EdmAuth) (rows rows' : list EdmAuth) (r : EdmAuth) :
  keeps_selection f -> update_row key f rows = Some rows' ->
  find_row key rows = Some r -> find_row key rows' = Some (f r).
Proof.
  intros K. unfold find_row. revert rows'.
  induction rows as [|x rows IH]; simpl; intros rows' U F; [discriminate|].
  destruct (String.eqb (id x) key) eqn:E.
  - injection U as <-. injection F as <-. simpl.
    destruct (K x) as [-> _]. now rewrite E.
  - destruct (update_row key f rows) as [l|]; [|discriminate].
    injection U as <-. simpl. rewrite E. now apply IH.
Qed.

Lemma find_row_untouched (key k : string) (f : EdmAuth -> EdmAuth) (rows rows' : list EdmAuth) :
  keeps_selection f -> update_row key f rows = Some rows' -> k <> key ->
  find_row k rows' = find_row k rows.
Proof.
  intros K U N. unfold find_row. revert rows' U.
  induction rows as [|x rows IH]; simpl; intros rows' U; [discriminate|].
  destruct (String.eqb_spec (id x) key) as [E | E].
  - injection U as <-. simpl. destruct (K x) as [-> _].
    destruct (String.eqb_spec (id x) k); [congruence | reflexivity].
  - destruct (update_row key f rows) as [l|]; [|discriminate].
    injection U as <-. simpl. destruct (String.eqb (id x) k); auto.
Qed.

Lemma find_row_stored (key : string) (rows : list EdmAuth) :
  stored key rows -> exists r, find_row key rows = Some r /\ id r = key.
Proof.
  unfold stored, find_row. induction rows as [|x rows IH]; simpl; [easy|].
  intros I. destruct (String.eqb_spec (id x) key) as [E | E]; [eauto|].
  destruct I as [I | I]; [contradiction | auto].
Qed.

Lemma In_stored (r : EdmAuth) (rows : list EdmAuth) :
  In r rows -> stored (id r) rows.
Proof. unfold stored. apply in_map. Qed.

Lemma keeps_selection_applyFailure (now : Z) : keeps_selection (applyFailure now).
Proof. intros r. split; reflexivity. Qed.

Lemma keeps_selection_applySuccess (a : option string) (e : option Z) (c h : string) (l n : Z) :
  keeps_selection (applySuccess a e c h l n).
Proof. intros r. split; reflexivity. Qed.

(** ** The frame of a refresh attempt *)

Lemma frame_refl (w : World) : frame w w.
Proof. now split. Qed.

Lemma frame_trans (a b c : World) : frame a b -> frame b c -> frame a c.
Proof.
  intros [s1 u1 d1 a1 p1] [s2 u2 d2 a2 p2].
  split; etransitivity; eassumption.
Qed.

Lemma page_fetches_app (a b : list Event) :
  page_fetches (a ++ b) = (page_fetches a + page_fetches b)%nat.
Proof. unfold page_fetches. now rewrite List.filter_app, length_app. Qed.

Lemma fetches_app (a b : list Event) :
  fetches (a ++ b) = (fetches a + fetches b)%nat.
Proof. unfold fetches. now rewrite List.filter_app, length_app. Qed.

Lemma page_fetches_snoc (events : list Event) (e : Event) :
  (forall n, e <> EvFindMany n) -> page_fetches (events ++ [e]) = page_fetches events.
Proof.
  intros N. rewrite page_fetches_app.
  destruct e as [? ? ?|? ?|n|?|? ?|? ? ?]; try (cbn; lia).
  now destruct (N n).
Qed.

Lemma page_fetches_page (events : list Event) (n : nat) :
  page_fetches (events ++ [EvFindMany n]) = S (page_fetches events).
Proof. rewrite page_fetches_app. cbn. lia. Qed.

Lemma frame_emit (e : Event) (w : World) :
  (forall n, e <> EvFindMany n) -> frame w (emit e w).
Proof.
  intros N. split; try reflexivity. simpl. now apply page_fetches_snoc.
Qed.

Section Steady.
Context `{EdmCrypto}.

Lemma steady_ret {A} (a : A) : steady (ret a).
Proof. intros w. apply frame_refl. Qed.

Lemma steady_throw {A} (m : string) : steady (@throw A m).
Proof. intros w. apply frame_refl. Qed.

Lemma steady_lift {A} (c : Completion A) : steady (lift c).
Proof. intros w. apply frame_refl. Qed.

Lemma steady_Date_now : steady Date_now.
Proof. intros w. apply frame_refl. Qed.

Lemma steady_console (l : Level) (label : string) (args : list JsValue) :
  steady (console l label args).
Proof. intros w. now apply frame_emit. Qed.

Lemma steady_encrypt (t : string) : steady (encrypt t).
Proof. intros w. now split. Qed.

Lemma steady_read_json {J} (r : Resp J) : steady (read_json r).
Proof. intros w. unfold read_json. destruct (json r); apply frame_refl. Qed.

Lemma steady_bind {A B} (c : Async A) (k : A -> Async B) :
  steady c -> (forall a, steady (k a)) -> steady (bind c k).
Proof.
  intros Hc Hk w. unfold bind. specialize (Hc w).
  destruct (c w) as [[a | m] w1]; simpl in *; [|assumption].
  eapply frame_trans; [eassumption | apply Hk].
Qed.

Lemma steady_try_catch {A} (body : Async A) (handler : string -> Async A) :
  steady body -> (forall m, steady (handler m)) -> steady (try_catch body handler).
Proof.
  intros Hb Hh w. unfold try_catch. specialize (Hb w).
  destruct (body w) as [[a | m] w1]; simpl in *; [assumption|].
  eapply frame_trans; [eassumption | apply Hh].
Qed.

Lemma steady_fetch_token (url : string) (params : list (string * string)) :
  steady (fetch_token url params).
Proof.
  intros w. unfold fetch_token, answer. simpl.
  destruct (tokenEndpoint w) as [|[latency [m | st txt js]] later]; simpl.
  - now apply frame_emit.
  - split; try reflexivity. simpl. now rewrite page_fetches_snoc.
  - split; try reflexivity. simpl. now rewrite !page_fetches_snoc.
Qed.

Lemma steady_update (key : string) (f : EdmAuth -> EdmAuth) :
  keeps_selection f -> steady (prisma_edmAuth_update key f).
Proof.
  intros K w. unfold prisma_edmAuth_update.
  destruct (update_row key f (edmAuth w)) as [rows|] eqn:U; simpl.
  - split; try reflexivity; simpl.
    + eapply update_row_selection; eassumption.
    + now rewrite page_fetches_snoc.
  - apply frame_refl.
Qed.

Lemma steady_if {A} (b : bool) (c d : Async A) :
  steady c -> steady d -> steady (if b then c else d).
Proof. now destruct b. Qed.

End Steady.

Create HintDb steady.

#[local] Hint Resolve steady_ret steady_throw steady_lift steady_Date_now steady_console
  steady_encrypt steady_read_json steady_fetch_token steady_update steady_if
  keeps_selection_applyFailure keeps_selection_applySuccess : steady.

Ltac steady_steps :=
  repeat first
    [ apply steady_bind; [|intros ?]
    | apply steady_try_catch; [|intros ?]
    | apply steady_if
    | match goal with
      | |- steady (match ?o with Some _ => _ | None => _ end) => destruct o
      | |- steady (let _ := _ in _) => cbv zeta
      end
    | solve [auto with steady] ].

Section SteadyRoutes.
Context `{EdmCrypto}.
Variable env : Env.

Lemma steady_refreshRecord (r : EdmAuth) : steady (RefreshAll.refreshRecord env r).
Proof. unfold RefreshAll.refreshRecord. steady_steps. Qed.

Lemma steady_refreshAccessTokenIfNeeded (failure : string) (rec : EdmAuth) :
  steady (refreshAccessTokenIfNeeded_with env failure rec).
Proof. unfold refreshAccessTokenIfNeeded_with. steady_steps. Qed.

End SteadyRoutes.

(** ** The sweep *)

Section Sweep.
Context `{EdmCrypto}.
Variable env : Env.

(** The [catch] block of [refreshRecord] always has a row to write to: the
    record came from the store and nothing in the [try] block removes it. *)
Lemma refreshRecord_returns (r : EdmAuth) (w : World) :
  stored (id r) (edmAuth w) ->
  exists o w', RefreshAll.refreshRecord env r w = (Return o, w')
               /\ RefreshAll.o_id o = id r.
Proof.
  intros S. unfold RefreshAll.refreshRecord, try_catch.
  match goal with |- context [match ?body w with _ => _ end] =>
    assert (F : steady body) by steady_steps;
    assert (I : forall o w', body w = (Return o, w') -> RefreshAll.o_id o = id r);
    [|specialize (F w); destruct (body w) as [[o | m] w1] eqn:E] end.
  - intros o w'. unfold bind, lift, fetch_token, answer, read_json, prisma_edmAuth_update, ret, throw, Date_now, encrypt.
    repeat match goal with
           | |- context [match ?x with _ => _ end] => destruct x; simpl
           | |- context [if ?x then _ else _] => destruct x; simpl
           end; intros E; inversion E; reflexivity.
  - exists o, w1. split; [reflexivity | eauto].
  - simpl in F. unfold bind, console, Date_now, prisma_edmAuth_update, ret. simpl.
    destruct (update_row_stored (id r) (applyFailure (clock w1)) (edmAuth w1)) as [rows ->].
    + eapply stored_selection; [|exact S]. symmetry. apply F.
    + eauto.
Qed.

Lemma for_of_returns (toRefresh : list EdmAuth) (results : list RefreshAll.Outcome) (w : World) :
  (forall r, In r toRefresh -> stored (id r) (edmAuth w)) ->
  exists results' w',
    RefreshAll.for_of env toRefresh results w = (Return results', w')
    /\ frame w w'
    /\ map RefreshAll.o_id results'
       = (map RefreshAll.o_id results ++ map id toRefresh)%list.
Proof.
  revert results w.
  induction toRefresh as [|r rest IH]; intros results w S; simpl.
  - exists results, w. rewrite app_nil_r. auto using frame_refl.
  - destruct (refreshRecord_returns r w) as (o & w1 & E & Ei); [apply S; now left|].
    pose proof (steady_refreshRecord env r w) as F. rewrite E in F. simpl in F.
    unfold bind. rewrite E.
    destruct (IH (results ++ [o]) w1) as (results' & w' & E' & F' & M).
    + intros x I. eapply stored_selection; [|apply S; now right].
      symmetry. apply F.
    + exists results', w'. split; [exact E'|]. split; [eapply frame_trans; eassumption|].
      rewrite M, map_app, <- app_assoc. simpl. now rewrite Ei.
Qed.

Lemma findMany_stored (w : World) (r : EdmAuth) (n : nat) :
  In r (firstn n (List.filter active (edmAuth w))) -> stored (id r) (edmAuth w).
Proof.
  intros I. apply In_stored.
  assert (I' : In r (List.filter active (edmAuth w))).
  { rewrite <- (firstn_skipn n). apply in_or_app. now left. }
  apply List.filter_In in I'. tauto.
Qed.

End Sweep.

Section SweepPages.
Context `{EdmCrypto}.
Variable env : Env.

(** The page the sweep is handed: the same one every time round, since
    [findMany] has no cursor and a refresh removes no row from the
    selection. *)
Lemma while_true_full_page (fuel : nat) :
  forall (pages : nat) (results : list RefreshAll.Outcome) (w : World),
    (RefreshAll.batchSize <= length (List.filter active (edmAuth w)))%nat ->
    exists results' w',
      RefreshAll.while_true env fuel pages results w
      = RefreshAll.StillLooping (pages + fuel) results' w'
      /\ map RefreshAll.o_id results'
         = map RefreshAll.o_id results
           ++ concat (repeat (map id (firstn RefreshAll.batchSize
                                             (List.filter active (edmAuth w)))) fuel)
      /\ page_fetches (trace w') = (page_fetches (trace w) + fuel)%nat.
Proof.
  induction fuel as [|fuel IH]; intros pages results w L.
  - exists results, w. simpl. rewrite Nat.add_0_r, app_nil_r. auto.
  - cbn [RefreshAll.while_true]. unfold prisma_edmAuth_findMany. cbv beta iota.
    set (page := firstn RefreshAll.batchSize (List.filter active (edmAuth w))).
    assert (Lp : length page = RefreshAll.batchSize)
      by (unfold page; rewrite length_firstn; lia).
    rewrite Lp. change (RefreshAll.batchSize =? 0)%nat with false. cbv iota.
    destruct (for_of_returns env page results (emit (EvFindMany RefreshAll.batchSize) w))
      as (rs & w2 & E & F & M).
    { intros r I. exact (findMany_stored w r RefreshAll.batchSize I). }
    rewrite E, Nat.ltb_irrefl.
    assert (S2 : selection (edmAuth w2) = selection (edmAuth w)) by apply F.
    destruct (IH (S pages) rs w2) as (rs' & w' & E' & M' & P').
    { now rewrite (active_count _ _ S2). }
    exists rs', w'. split; [rewrite E'; f_equal; lia|]. split.
    + rewrite M', M. cbn [repeat concat]. rewrite <- app_assoc. do 2 f_equal.
      unfold page. rewrite <- !firstn_map. now rewrite (active_selection _ _ S2).
    + rewrite P', (frame_pages _ _ F). simpl. rewrite page_fetches_page. lia.
Qed.

(** With fewer rows than a page holds the loop is left after one page. *)
Lemma while_true_short_page (fuel pages : nat) (results : list RefreshAll.Outcome) (w : World) :
  (length (List.filter active (edmAuth w)) < RefreshAll.batchSize)%nat ->
  exists results' w',
    RefreshAll.while_true env (S fuel) pages results w
    = RefreshAll.Finished
        (mkNextResponse 200 (RefreshAll.Processed (length results') results')) w'
    /\ map RefreshAll.o_id results'
       = map RefreshAll.o_id results ++ map id (List.filter active (edmAuth w))
    /\ page_fetches (trace w') = S (page_fetches (trace w)).
Proof.
  intros L. cbn [RefreshAll.while_true]. unfold prisma_edmAuth_findMany. cbv beta iota.
  rewrite firstn_all2 by lia.
  set (page := List.filter active (edmAuth w)) in *.
  assert (P1 : page_fetches (trace (emit (EvFindMany RefreshAll.batchSize) w))
               = S (page_fetches (trace w))).
  { simpl. apply page_fetches_page. }
  destruct (length page =? 0)%nat eqn:Z.
  - exists results, (emit (EvFindMany RefreshAll.batchSize) w).
    apply Nat.eqb_eq in Z. apply length_zero_iff_nil in Z. rewrite Z.
    simpl map. rewrite app_nil_r. auto.
  - destruct (for_of_returns env page results (emit (EvFindMany RefreshAll.batchSize) w))
      as (rs & w2 & E & F & M).
    { intros r I. apply In_stored. apply List.filter_In in I. apply I. }
    rewrite E. apply Nat.ltb_lt in L. rewrite L.
    exists rs, w2. split; [reflexivity|]. split; [exact M|].
    now rewrite (frame_pages _ _ F).
Qed.

End SweepPages.

(** ** Who may start the sweep *)

Section Gate.
Context `{EdmCrypto}.
Variable env : Env.

Lemma checkAuth_iff (req : RefreshAll.Request) :
  RefreshAll.checkAuth env req = true <-> presents_secret env req \/ vercel_cron env req.
Proof.
  unfold RefreshAll.checkAuth, presents_secret, vercel_cron.
  set (key := env_or env "ADMIN_REFRESH_KEY" "").
  destruct (String.eqb_spec (default "" (RefreshAll.headers req !! "authorization"))
                            ("Bearer " +:+ key)) as [B | B].
  - split; [intros _ | reflexivity]. left. left.
    destruct (RefreshAll.headers req !! "authorization") as [a|]; simpl in B.
    + now subst a.
    + discriminate.
  - destruct (bool_decide_reflect (RefreshAll.headers req !! "x-admin-key" = Some key)) as [K | K].
    + split; [intros _ | reflexivity]. left. now right.
    + destruct (bool_decide_reflect (env !! "VERCEL" = Some "1")) as [V | V];
        destruct (bool_decide_reflect (RefreshAll.headers req !! "x-vercel-cron" <> None)) as [C | C];
        simpl; split; try discriminate; auto;
        intros [[A | A] | [V' C']]; try contradiction;
        rewrite A in B; simpl in B; contradiction.
Qed.


End Gate.

(** * The sweep endpoint: POST /api/edm/refresh-all *)

(** C1 (the code departs from the claim).  The claim has the sweep visit
    every non-revoked credential once and stop.  It does so only when they
    fit on one page.  As soon as the store holds a full page of them
    ([batchSize] or more), the loop is never left: [findMany] is called
    without cursor or offset, a refresh removes no row from the selection,
    so every round is handed the same first [batchSize] rows again.  After
    any number [fuel] of rounds the route is still looping, has fetched
    [fuel] pages and has pushed [fuel] times the outcomes of that same first
    page; rows beyond it are never reached. *)
Theorem sweep_full_page_never_finishes `{EdmCrypto} (env : Env) (fuel : nat)
    (req : RefreshAll.Request) (w : World) :
  RefreshAll.checkAuth env req = true ->
  (RefreshAll.batchSize <= length (List.filter active (edmAuth w)))%nat ->
  exists results w',
    RefreshAll.POST env fuel req w = RefreshAll.StillLooping fuel results w'
    /\ map RefreshAll.o_id results
       = concat (repeat (map id (firstn RefreshAll.batchSize
                                        (List.filter active (edmAuth w)))) fuel)
    /\ page_fetches (trace w') = (page_fetches (trace w) + fuel)%nat.
Proof.
  intros A L. unfold RefreshAll.POST. rewrite A. simpl negb. cbv iota.
  destruct (while_true_full_page env fuel 0 [] w L) as (results & w' & E & M & P).
  exists results, w'. auto.
Qed.

Lemma sweep_full_page_never_finishes_witness :
  @RefreshAll.checkAuth demo_env admin_request = true
  /\ (RefreshAll.batchSize <= length (List.filter active (credentials 250)))%nat
  /\ exists results w',
       @RefreshAll.POST demo_crypto demo_env 4 admin_request (world_of (credentials 250) [])
       = RefreshAll.StillLooping 4 results w'
       /\ map RefreshAll.o_id results
          = concat (repeat (map id (firstn RefreshAll.batchSize
                                           (List.filter active (credentials 250)))) 4)
       /\ page_fetches (trace w') = (page_fetches [] + 4)%nat.
Proof.
  assert (A : @RefreshAll.checkAuth demo_env admin_request = true)
    by (vm_compute; reflexivity).
  assert (L : (RefreshAll.batchSize <= length (List.filter active (credentials 250)))%nat).
  { apply Nat.leb_le. vm_compute. reflexivity. }
  split; [exact A|]. split; [exact L|].
  exact (@sweep_full_page_never_finishes demo_crypto demo_env 4 admin_request
           (world_of (credentials 250) []) A L).
Defined.




(** * The patient payload *)

Lemma removeEmpty_obj (fields : list (string * JsValue)) :
  OrderVisit.removeEmpty (JObj fields) = JObj (OrderVisit.removeEmpty_keys fields).
Proof. reflexivity. Qed.

Lemma removeEmpty_keys_cons (key : string) (val : JsValue) (rest : list (string * JsValue)) :
  OrderVisit.removeEmpty_keys ((key, val) :: rest)
  = match val with
    | JStr EmptyString | JNull | JUndefined => OrderVisit.removeEmpty_keys rest
    | JObj _ =>
        match OrderVisit.removeEmpty val with
        | JObj [] => OrderVisit.removeEmpty_keys rest
        | val' => (key, val') :: OrderVisit.removeEmpty_keys rest
        end
    | _ => (key, val) :: OrderVisit.removeEmpty_keys rest
    end.
Proof. destruct val as [| | | |[|]|]; reflexivity. Qed.

Lemma populated_obj (fields : list (string * JsValue)) :
  populated (JObj fields)
  = match fields with [] => false | _ => true end
    && forallb (fun kv => populated (snd kv)) fields.
Proof.
  cbn [populated]. f_equal.
  induction fields as [|[k x] rest IH]; [reflexivity|].
  cbn [forallb snd]. now rewrite <- IH.
Qed.

(** Whatever it is given, [removeEmpty] hands back a sparse value. *)
Lemma removeEmpty_sparse (v : JsValue) : sparse (OrderVisit.removeEmpty v) = true.
Proof.
  induction v as [| | b | n | s | fields IH] using JsValue_ind; try reflexivity.
  rewrite removeEmpty_obj. cbn [sparse].
  induction IH as [|[key val] rest Hval _ IHrest]; [reflexivity|].
  rewrite removeEmpty_keys_cons. cbn [snd] in Hval.
  destruct val as [| | b | n | [|c s] | inner]; cbn [forallb snd]; try exact IHrest;
    try (rewrite IHrest; reflexivity).
  rewrite removeEmpty_obj in *. cbn [sparse] in Hval.
  destruct (OrderVisit.removeEmpty_keys inner) as [|kv kept] eqn:K; [exact IHrest|].
  cbn [forallb snd]. rewrite populated_obj, Hval, IHrest. reflexivity.
Qed.

(** C9.  Whatever the input, the payload [buildPatientPayload] returns
    binds no key, at any depth, to the empty string, to [null] or to
    [undefined], and holds no nested object without keys. *)
Theorem patient_payload_is_sparse (input : OrderVisit.PatientInput) :
  sparse (OrderVisit.buildPatientPayload input) = true.
Proof. unfold OrderVisit.buildPatientPayload. apply removeEmpty_sparse. Qed.

(** * Refresh attempts *)

Lemma find_row_Some_stored (key : string) (rows : list EdmAuth) (r : EdmAuth) :
  find_row key rows = Some r -> stored key rows.
Proof.
  unfold find_row, stored. intros F. apply find_some in F as [I E].
  apply String.eqb_eq in E. subst key. now apply in_map.
Qed.

(** Symbolic execution of a route: unfold the monad and the primitives,
    leave the store operations and the cipher alone. *)
Ltac run :=
  unfold bind, try_catch, lift, ret, throw, Date_now, console, encrypt, fetch_token,
    fetch_api, answer, read_json, prisma_edmAuth_update, prisma_edmAuth_findFirst,
    emit, set_clock, set_rng, set_tokenEndpoint, set_edmApi, set_edmAuth, set_user;
  cbn [edmAuth user edmDoctorDepartment clock rng tokenEndpoint edmApi trace
       status text json negb fst snd].

(** The write of a refresh finds its row whenever the store has one with
    that id. *)
Ltac write_row S :=
  match goal with
  | |- context [update_row ?k ?f ?rows] =>
      let rows' := fresh "rows" in
      let U := fresh "U" in
      destruct (update_row_stored k f rows S) as [rows' U]; rewrite U
  end.

Section Attempts.
Context `{EdmCrypto}.
Variable env : Env.

(** C4.  When the token endpoint answers a refresh with a status outside
    [200..299], the stored credential has its failure count raised by
    exactly one and its [nextRefreshAt] set to one hour after the time of
    the write; its token material (both ciphertexts, the hash, the expiry)
    and every other field stay as they were, and so does every other
    credential.  The sweep reports the refusal as an outcome, the request
    path throws it. *)
Theorem refused_refresh_backs_off (failure : string) (r r0 : EdmAuth) (w : World)
    (raw : string) (latency st : Z) (txt : string) (js : option TokenJson)
    (later : list (Z * FetchResult TokenJson)) :
  find_row (id r) (edmAuth w) = Some r0 ->
  decryptToken (encryptedRefreshToken r) = Return raw ->
  tokenEndpoint w = (latency, Response st txt js) :: later ->
  ok (mkResp st txt js) = false ->
  let backed_off (w' : World) :=
    exists r1,
      find_row (id r) (edmAuth w') = Some r1
      /\ refreshFailureCount r1 = refreshFailureCount r0 + 1
      /\ nextRefreshAt r1 = Some (clock w' + 60 * 60 * 1000)
      /\ encryptedAccessToken r1 = encryptedAccessToken r0
      /\ accessTokenExpiresAt r1 = accessTokenExpiresAt r0
      /\ encryptedRefreshToken r1 = encryptedRefreshToken r0
      /\ refreshTokenHash r1 = refreshTokenHash r0
      /\ lastRefreshedAt r1 = lastRefreshedAt r0
      /\ revoked r1 = revoked r0
      /\ forall k, k <> id r -> find_row k (edmAuth w') = find_row k (edmAuth w) in
  (exists w',
     RefreshAll.refreshRecord env r w
     = (Return (RefreshAll.mkOutcome (id r) false (Some txt) None), w')
     /\ backed_off w')
  /\ (still_valid r (clock w) = false ->
      exists w',
        refreshAccessTokenIfNeeded_with env failure r w = (Throw (failure +:+ txt), w')
        /\ backed_off w').
Proof.
  intros F D T K backed_off.
  destruct (update_row_stored (id r) (applyFailure (clock w + latency)) (edmAuth w))
    as [rows U]; [eapply find_row_Some_stored; eassumption|].
  assert (B : forall tr, backed_off
            (mkWorld rows (user w) (edmDoctorDepartment w) (clock w + latency) (rng w)
                     later (edmApi w) tr)).
  { intros tr. exists (applyFailure (clock w + latency) r0). cbn [edmAuth clock].
    split; [eapply find_row_updated; eauto using keeps_selection_applyFailure|].
    repeat (split; [reflexivity|]).
    intros k N. eapply find_row_untouched; eauto using keeps_selection_applyFailure. }
  split.
  - unfold RefreshAll.refreshRecord. run. rewrite D, T. run. rewrite K. run.
    rewrite U. eexists. split; [reflexivity | apply B].
  - intros V. unfold refreshAccessTokenIfNeeded_with. run. rewrite V, D, T. run.
    rewrite K. run. rewrite U. eexists. split; [reflexivity | apply B].
Qed.

(** C3 (the code departs from the claim).  A [200] answer without an
    [access_token] (missing or empty) is no failure for the sweep:
    [refreshRecord] writes the success update (failure count back to [0],
    [lastRefreshedAt] now, [nextRefreshAt] eight hours on, the stored access
    token left as it is) and reports [ok: true]. *)
Theorem sweep_takes_malformed_grant_for_success (r r0 : EdmAuth) (w : World)
    (raw : string) (latency st : Z) (txt : string) (data : TokenJson)
    (later : list (Z * FetchResult TokenJson)) :
  find_row (id r) (edmAuth w) = Some r0 ->
  decryptToken (encryptedRefreshToken r) = Return raw ->
  tokenEndpoint w = (latency, Response st txt (Some data)) :: later ->
  ok (mkResp st txt (Some data)) = true ->
  truthy_opt (access_token data) = false ->
  exists w' r1,
    RefreshAll.refreshRecord env r w
    = (Return (RefreshAll.mkOutcome (id r) true None (Some (clock w' + 8 * 60 * 60 * 1000))),
       w')
    /\ find_row (id r) (edmAuth w') = Some r1
    /\ refreshFailureCount r1 = 0
    /\ nextRefreshAt r1 = Some (clock w' + 8 * 60 * 60 * 1000)
    /\ lastRefreshedAt r1 = Some (clock w')
    /\ encryptedAccessToken r1 = encryptedAccessToken r0.
Proof.
  intros F D T K A.
  assert (S : stored (id r) (edmAuth w)) by (eapply find_row_Some_stored; eassumption).
  unfold RefreshAll.refreshRecord. run. rewrite D, T. run. rewrite K. run.
  assert (A' : match access_token data with Some a => truthy_string a | None => false end
               = false) by exact A.
  destruct (access_token data) as [a|]; [rewrite A'|]; run;
    (destruct (refresh_token data) as [t|]; [destruct (truthy_string t)|]; run;
     write_row S;
     eexists (mkWorld _ _ _ _ _ _ _ _); eexists; (split; [reflexivity|]);
     cbn [edmAuth clock];
     (split; [eapply find_row_updated; eauto using keeps_selection_applySuccess|]);
     repeat split).
Qed.

(** C2 (the code departs from the claim).  On the request path two kinds of
    failed attempt leave the store exactly as it was, [nextRefreshAt]
    included: one whose stored refresh token does not decrypt (nothing at
    all happens: the error is thrown from the world as it was), and one
    answered [200] without an [access_token]. *)
Theorem request_path_fails_without_backoff (failure : string) (r : EdmAuth) (w : World) :
  still_valid r (clock w) = false ->
  (forall m,
     decryptToken (encryptedRefreshToken r) = Throw m ->
     refreshAccessTokenIfNeeded_with env failure r w = (Throw m, w))
  /\ (forall raw latency st txt data later,
        decryptToken (encryptedRefreshToken r) = Return raw ->
        tokenEndpoint w = (latency, Response st txt (Some data)) :: later ->
        ok (mkResp st txt (Some data)) = true ->
        truthy_opt (access_token data) = false ->
        exists w',
          refreshAccessTokenIfNeeded_with env failure r w
          = (Throw "No access_token in refresh response", w')
          /\ edmAuth w' = edmAuth w).
Proof.
  intros V. split.
  - intros m D. unfold refreshAccessTokenIfNeeded_with. run. now rewrite V, D.
  - intros raw latency st txt data later D T K A.
    unfold refreshAccessTokenIfNeeded_with. run. rewrite V, D, T. run.
    rewrite K, A. run. eexists. split; reflexivity.
Qed.

End Attempts.

(** * The request path *)

Lemma fetches_snoc (events : list Event) (e : Event) :
  fetches (events ++ [e])
  = (fetches events + match e with EvFetch _ _ _ => 1 | _ => 0 end)%nat.
Proof. rewrite fetches_app. destruct e; reflexivity. Qed.

Lemma still_valid_false (rec : EdmAuth) (now : Z) :
  still_valid rec now = false
  <-> truthy_opt (encryptedAccessToken rec) = false
      \/ accessTokenExpiresAt rec = None
      \/ exists expires, accessTokenExpiresAt rec = Some expires /\ expires <= now + 60 * 1000.
Proof.
  unfold still_valid.
  destruct (truthy_opt (encryptedAccessToken rec)); cbn [andb]; [|tauto].
  destruct (accessTokenExpiresAt rec) as [expires|].
  - rewrite Z.ltb_ge. split.
    + intros L. right. right. eauto.
    + intros [E | [E | (x & E & L)]]; try discriminate. now injection E as ->.
  - tauto.
Qed.

Section Provider.
Context `{EdmCrypto}.
Variable env : Env.

(** C5, amended.  When the token endpoint answers [200] with a non-empty
    [access_token], the request path stores that token encrypted, resets
    the failure count to [0], sets [lastRefreshedAt] to now and
    [nextRefreshAt] to eight hours on, and returns the plaintext token.
    [accessTokenExpiresAt] becomes now + [expires_in] seconds when
    [expires_in] is present and not zero, and keeps its stored value
    otherwise.  A non-empty [refresh_token] replaces both the stored
    refresh ciphertext and its hash; without one both stay exactly as they
    were. *)
Theorem granted_refresh_is_stored (failure : string) (r : EdmAuth) (w : World)
    (raw : string) (latency st : Z) (txt : string) (data : TokenJson)
    (later : list (Z * FetchResult TokenJson)) (token : string) :
  find_row (id r) (edmAuth w) = Some r ->
  still_valid r (clock w) = false ->
  decryptToken (encryptedRefreshToken r) = Return raw ->
  tokenEndpoint w = (latency, Response st txt (Some data)) :: later ->
  ok (mkResp st txt (Some data)) = true ->
  access_token data = Some token ->
  truthy_string token = true ->
  exists w' r1,
    refreshAccessTokenIfNeeded_with env failure r w = (Return token, w')
    /\ find_row (id r) (edmAuth w') = Some r1
    /\ encryptedAccessToken r1 = Some (encryptToken (rng w) token)
    /\ refreshFailureCount r1 = 0
    /\ lastRefreshedAt r1 = Some (clock w')
    /\ nextRefreshAt r1 = Some (clock w' + 8 * 60 * 60 * 1000)
    /\ accessTokenExpiresAt r1
       = (if truthy_num (expires_in data)
          then Some (clock w' + default 0 (expires_in data) * 1000)
          else accessTokenExpiresAt r)
    /\ (if truthy_opt (refresh_token data)
        then encryptedRefreshToken r1
             = encryptToken (S (rng w)) (default "" (refresh_token data))
             /\ refreshTokenHash r1 = hashToken (default "" (refresh_token data))
        else encryptedRefreshToken r1 = encryptedRefreshToken r
             /\ refreshTokenHash r1 = refreshTokenHash r)
    /\ revoked r1 = revoked r
    /\ forall k, k <> id r -> find_row k (edmAuth w') = find_row k (edmAuth w).
Proof.
  intros F V D T K A N.
  assert (S : stored (id r) (edmAuth w)) by (eapply find_row_Some_stored; eassumption).
  unfold refreshAccessTokenIfNeeded_with. run. rewrite V, D, T. run. rewrite K. run.
  rewrite A. cbn [truthy_opt default negb]. rewrite N. run.
  destruct (truthy_opt (refresh_token data)) eqn:R; run; write_row S;
    eexists (mkWorld _ _ _ _ _ _ _ _); eexists; (split; [reflexivity|]);
    cbn [edmAuth clock];
    (split; [eapply find_row_updated; eauto using keeps_selection_applySuccess|]);
    cbn [applySuccess encryptedAccessToken refreshFailureCount lastRefreshedAt
         nextRefreshAt accessTokenExpiresAt encryptedRefreshToken refreshTokenHash revoked];
    repeat (split; [reflexivity|]);
    (split; [destruct (truthy_num (expires_in data)); reflexivity|]);
    (split; [split; reflexivity|]); (split; [reflexivity|]);
    intros k Nk; eapply find_row_untouched; eauto using keeps_selection_applySuccess.
Qed.

(** C6, amended.  Whether the request path calls the token endpoint is
    decided by the stored record and the clock: it makes exactly one call
    when the stored access token is missing (or empty), or its expiry is
    missing or no more than sixty seconds ahead, provided the stored
    refresh token decrypts; when that token does not decrypt the error is
    thrown with no call made.  Otherwise (the fast path) it hands back
    [decryptToken] of the stored access token and leaves the world exactly
    as it was: no call, no write. *)
Theorem refresh_call_iff_stale (failure : string) (rec : EdmAuth) (w : World) :
  let stale_token :=
    truthy_opt (encryptedAccessToken rec) = false
    \/ accessTokenExpiresAt rec = None
    \/ exists expires,
         accessTokenExpiresAt rec = Some expires /\ expires <= clock w + 60 * 1000 in
  let decrypts := exists raw, decryptToken (encryptedRefreshToken rec) = Return raw in
  let outcome := refreshAccessTokenIfNeeded_with env failure rec w in
  (fetches (trace (snd outcome)) = S (fetches (trace w)) <-> stale_token /\ decrypts)
  /\ (fetches (trace (snd outcome)) = fetches (trace w) <-> ~ (stale_token /\ decrypts))
  /\ (~ stale_token ->
      outcome = (decryptToken (default "" (encryptedAccessToken rec)), w)).
Proof.
  intros stale_token decrypts outcome.
  pose proof (still_valid_false rec (clock w)) as I. fold stale_token in I.
  assert (Fast : still_valid rec (clock w) = true ->
                 outcome = (decryptToken (default "" (encryptedAccessToken rec)), w)).
  { intros V. unfold outcome, refreshAccessTokenIfNeeded_with. run. rewrite V.
    now destruct (decryptToken _). }
  assert (Dead : forall m, still_valid rec (clock w) = false ->
                 decryptToken (encryptedRefreshToken rec) = Throw m ->
                 outcome = (Throw m, w)).
  { intros m V D. unfold outcome, refreshAccessTokenIfNeeded_with. run.
    now rewrite V, D. }
  assert (Slow : forall raw, still_valid rec (clock w) = false ->
                 decryptToken (encryptedRefreshToken rec) = Return raw ->
                 fetches (trace (snd outcome)) = S (fetches (trace w))).
  { intros raw V D. unfold outcome, refreshAccessTokenIfNeeded_with. run.
    rewrite V, D.
    destruct (tokenEndpoint w) as [|[latency [m | st txt js]] later]; run;
      [| |destruct (ok _); run;
          [destruct js as [data|]; run;
             [destruct (truthy_opt (access_token data)); run;
                [destruct (truthy_opt (refresh_token data)); run|]|]|];
          try match goal with
              | |- context [update_row ?k ?f ?rows] => destruct (update_row k f rows)
              end];
      cbn [snd trace]; rewrite ?fetches_snoc; lia. }
  destruct (still_valid rec (clock w)) eqn:V.
  - assert (NS : ~ stale_token) by (intros S; apply I in S; discriminate).
    rewrite (Fast eq_refl). cbn [snd]. repeat split; try tauto; try lia.
  - assert (S : stale_token) by (now apply I).
    destruct (decryptToken (encryptedRefreshToken rec)) as [raw | m] eqn:D.
    + assert (Dc : decrypts) by (exists raw; reflexivity).
      rewrite (Slow raw eq_refl eq_refl). repeat split; try tauto; try lia.
    + assert (ND : ~ decrypts) by (intros [raw E]; discriminate).
      rewrite (Dead m eq_refl eq_refl). cbn [snd]. repeat split; try tauto; try lia.
Qed.

End Provider.

(** * The theorems at work on concrete worlds *)

Lemma refused_refresh_backs_off_witness :
  exists w' r1,
    @RefreshAll.refreshRecord demo_crypto demo_env (stale "cred-1")
      (world_of [stale "cred-1"] [refused 400 "invalid_grant"])
    = (Return (RefreshAll.mkOutcome "cred-1" false (Some "invalid_grant") None), w')
    /\ find_row "cred-1" (edmAuth w') = Some r1
    /\ refreshFailureCount r1 = 3.
Proof.
  destruct (@refused_refresh_backs_off demo_crypto demo_env "EDM token refresh failed: "
              (stale "cred-1") (stale "cred-1")
              (world_of [stale "cred-1"] [refused 400 "invalid_grant"])
              "refresh-1" 250 400 "invalid_grant" None [])
    as [(w' & E & r1 & F & C & _) _]; try (vm_compute; reflexivity).
  exists w', r1. split; [exact E|]. split; [exact F|]. rewrite C. reflexivity.
Defined.

Lemma sweep_takes_malformed_grant_for_success_witness :
  exists w' r1,
    @RefreshAll.refreshRecord demo_crypto demo_env (stale "cred-1")
      (world_of [stale "cred-1"] [(250, Response 200 "{}" (Some (mkTokenJson None None None)))])
    = (Return (RefreshAll.mkOutcome "cred-1" true None (Some (clock w' + 8 * 60 * 60 * 1000))),
       w')
    /\ find_row "cred-1" (edmAuth w') = Some r1
    /\ refreshFailureCount r1 = 0.
Proof.
  destruct (@sweep_takes_malformed_grant_for_success demo_crypto demo_env
              (stale "cred-1") (stale "cred-1")
              (world_of [stale "cred-1"]
                        [(250, Response 200 "{}" (Some (mkTokenJson None None None)))])
              "refresh-1" 250 200 "{}" (mkTokenJson None None None) [])
    as (w' & r1 & E & F & C & _); try (vm_compute; reflexivity).
  exists w', r1. auto.
Defined.

Lemma request_path_fails_without_backoff_witness :
  @refreshAccessTokenIfNeeded_with demo_crypto demo_env "EDM token refresh failed: "
    (corrupted "cred-1") (world_of [corrupted "cred-1"] [granted "A" None (Some 3600)])
  = (Throw "Unsupported state or unable to authenticate data",
     world_of [corrupted "cred-1"] [granted "A" None (Some 3600)]).
Proof.
  refine (proj1 (@request_path_fails_without_backoff demo_crypto demo_env
                   "EDM token refresh failed: " (corrupted "cred-1")
                   (world_of [corrupted "cred-1"] [granted "A" None (Some 3600)]) _) _ _);
    vm_compute; reflexivity.
Defined.

Lemma granted_refresh_is_stored_witness :
  exists w' r1,
    @refreshAccessTokenIfNeeded_with demo_crypto demo_env "EDM token refresh failed: "
      (stale "cred-1") (world_of [stale "cred-1"] [granted "A" (Some "R2") (Some 3600)])
    = (Return "A", w')
    /\ find_row "cred-1" (edmAuth w') = Some r1
    /\ encryptedAccessToken r1 = Some "7:A"
    /\ refreshFailureCount r1 = 0
    /\ encryptedRefreshToken r1 = "8:R2"
    /\ refreshTokenHash r1 = "sha256(R2)".
Proof.
  destruct (@granted_refresh_is_stored demo_crypto demo_env "EDM token refresh failed: "
              (stale "cred-1")
              (world_of [stale "cred-1"] [granted "A" (Some "R2") (Some 3600)])
              "refresh-1" 250 200 "{...}" (mkTokenJson (Some "A") (Some "R2") (Some 3600)) [] "A")
    as (w' & r1 & E & F & A & C & _ & _ & _ & [R Hh] & _); try (vm_compute; reflexivity).
  exists w', r1. exact (conj E (conj F (conj A (conj C (conj R Hh))))).
Defined.

(** C5 as stated fails where it has the expiry absent after a grant without
    [expires_in]: the update passes [undefined] for the field, and the
    stored expiry stays. *)
Lemma expiry_outlives_grant_without_expires_in :
  exists w',
    @refreshAccessTokenIfNeeded_with demo_crypto demo_env "EDM token refresh failed: "
      (stale "cred-1") (world_of [stale "cred-1"] [granted "A" None None])
    = (Return "A", w')
    /\ accessTokenExpiresAt (stale "cred-1") = Some 1000
    /\ option_map accessTokenExpiresAt (find_row "cred-1" (edmAuth w')) = Some (Some 1000).
Proof. eexists. repeat split; vm_compute; reflexivity. Qed.

(** C6 as stated fails in one direction: the stored access token has
    expired, so the claim has a network call made, but the stored refresh
    token does not decrypt and the route throws before calling. *)
Lemma no_call_when_refresh_token_is_unreadable :
  accessTokenExpiresAt (corrupted "cred-1") = Some 1000
  /\ clock (world_of [corrupted "cred-1"] [granted "A" None (Some 3600)]) = 1000000
  /\ fetches (trace (snd (@refreshAccessTokenIfNeeded_with demo_crypto demo_env
                             "EDM token refresh failed: " (corrupted "cred-1")
                             (world_of [corrupted "cred-1"] [granted "A" None (Some 3600)]))))
     = 0%nat.
Proof. repeat split; vm_compute; reflexivity. Qed.

(** * What the caller is told when the upstream refuses *)



Section Refused.
Context `{EdmCrypto}.
Variable env : Env.


End Refused.

Section RefusedRoutes.
Context `{EdmCrypto}.
Variable env : Env.


End RefusedRoutes.



(** * Upstream refusals on the order-visit route *)

Lemma consumed_none {A} (script consumed : list A) :
  script = consumed ++ script -> consumed = [].
Proof. intros E. apply (app_inv_tail script). now rewrite <- E. Qed.

Lemma consumed_one {A} (reply : A) (later consumed : list A) :
  reply :: later = consumed ++ later -> consumed = [reply].
Proof. intros E. apply (app_inv_tail later). now rewrite <- E. Qed.

Lemma consumed_two {A} (first second : A) (later consumed : list A) :
  first :: second :: later = consumed ++ later -> consumed = [first; second].
Proof. intros E. apply (app_inv_tail later). now rewrite <- E. Qed.

(** Settles a run of the route once it is known which replies it took. *)
Ltac settle :=
  let Hc := fresh "Hc" in
  let Hin := fresh "Hin" in
  let Hok := fresh "Hok" in
  intros Hc Hin Hok;
  first [ apply consumed_none in Hc
        | apply consumed_one in Hc
        | apply consumed_two in Hc ];
  subst; cbn [In] in Hin;
  repeat match goal with
         | G : _ \/ _ |- _ => destruct G
         | G : False |- _ => destruct G
         | G : (_, _) = (_, _) |- _ => inversion G; clear G; subst
         end;
  try congruence;
  first [ exists "create_patient"; split; [left; reflexivity | reflexivity]
        | exists "create_visit"; split; [right; reflexivity | reflexivity] ].

Ltac step :=
  cbn [fst snd edmApi user edmAuth edmDoctorDepartment clock rng tokenEndpoint trace
       negb orb status text json].

Section OrderVisitRefusals.
Context `{EdmCrypto}.
Variable env : Env.
Variable isoDate : Z -> string.

(** C10.  Take any run of the order-visit route and the replies of the EDM
    API it used up.  If one of them is an answer with a status outside
    [200..299] (the route calls the API only once it holds an access token,
    to create the patient and to create the visit), then the route answers
    with HTTP status [200] and the body
    [{ ok: false, step, status, body }], where [step] is ["create_patient"]
    or ["create_visit"], [status] is the upstream status and [body] the
    upstream body, parsed (or [{ raw: text }] when it is no JSON). *)
Theorem upstream_refusal_is_answered_200 (req : OrderVisit.Request) (w : World)
    (consumed : list (Z * FetchResult JsValue))
    (latency st : Z) (txt : string) (js : option JsValue) :
  edmApi w = consumed ++ edmApi (snd (OrderVisit.POST env isoDate req w)) ->
  In (latency, Response st txt js) consumed ->
  ok (mkResp st txt js) = false ->
  exists step,
    (step = "create_patient" \/ step = "create_visit")
    /\ fst (OrderVisit.POST env isoDate req w)
       = mkNextResponse 200
           (JObj [("ok", JBool false);
                  ("step", JStr step);
                  ("status", JNum st);
                  ("body", match js with
                           | Some parsed => parsed
                           | None => JObj [("raw", JStr txt)]
                           end)]).
Proof.
  unfold OrderVisit.POST, OrderVisit.handler, OrderVisit.prisma_user_findUnique,
    OrderVisit.prisma_edmDoctorDepartment_findFirst, OrderVisit.prisma_user_update.
  run.
  destruct (OrderVisit.req_json req) as [body|]; step; [|settle].
  destruct (truthy_opt (OrderVisit.userId body)); step; [|settle].
  destruct (truthy_opt (OrderVisit.name body)); step; [|settle].
  destruct (truthy_opt (OrderVisit.surname body)); step; [|settle].
  destruct (find _ (user w)) as [u|]; step; [|settle].
  destruct (most_recent _) as [rec|]; step; [|settle].
  match goal with
  | |- context [OrderVisit.refreshAccessTokenIfNeeded env rec ?W] =>
      pose proof (frame_edmApi _ _
                    (steady_refreshAccessTokenIfNeeded env "EDM refresh failed: " rec W))
        as FA;
      unfold OrderVisit.refreshAccessTokenIfNeeded;
      destruct (refreshAccessTokenIfNeeded_with env "EDM refresh failed: " rec W)
        as [[accessToken | m] w2]
  end; step; cbn [snd edmApi] in FA; [|rewrite FA; settle].
  destruct (truthy _); step; rewrite ?FA.
  - (* the patient is known to the EDM already *)
    destruct (OrderVisit.latest _) as [edmCfg|]; step; rewrite ?FA; [|settle].
    destruct (truthy_num (doctorExternalId edmCfg)); step; rewrite ?FA; [|settle].
    destruct (truthy_num (departmentExternalId edmCfg)); step; rewrite ?FA; [|settle].
    destruct (edmApi w) as [|[latency1 [m1 | st1 txt1 js1]] later1]; step;
      [settle | settle |].
    destruct (ok _) eqn:K1; step; settle.
  - (* the patient has to be created first *)
    destruct (edmApi w) as [|[latency1 [m1 | st1 txt1 js1]] later1]; step;
      [settle | settle |].
    destruct (ok _) eqn:K1; step; [|settle].
    destruct (OrderVisit.member _ _) as [newId | m]; step; [|settle].
    destruct (OrderVisit.update_user _ _ _) as [rows|]; step; [|settle].
    destruct (OrderVisit.latest _) as [edmCfg|]; step; [|settle].
    destruct (truthy_num (doctorExternalId edmCfg)); step; [|settle].
    destruct (truthy_num (departmentExternalId edmCfg)); step; [|settle].
    destruct later1 as [|[latency2 [m2 | st2 txt2 js2]] later2]; step;
      [settle | settle |].
    destruct (ok (mkResp st2 txt2 js2)) eqn:K2; step; settle.
Qed.

End OrderVisitRefusals.

Lemma upstream_refusal_is_answered_200_witness :
  let reply := (120, Response 422 "{...}" (Some (JObj [("pesel", JStr "invalid")]))) in
  let w := clinic [live "cred-1"] [] [reply] in
  edmApi w = [reply] ++ edmApi (snd (@OrderVisit.POST demo_crypto demo_env epoch_day
                                       visit_request w))
  /\ exists step,
       (step = "create_patient" \/ step = "create_visit")
       /\ fst (@OrderVisit.POST demo_crypto demo_env epoch_day visit_request w)
          = mkNextResponse 200
              (JObj [("ok", JBool false);
                     ("step", JStr step);
                     ("status", JNum 422);
                     ("body", JObj [("pesel", JStr "invalid")])]).
Proof.
  intros reply w.
  assert (Hc : edmApi w = [reply] ++ edmApi (snd (@OrderVisit.POST demo_crypto demo_env
                                                    epoch_day visit_request w)))
    by (vm_compute; reflexivity).
  split; [exact Hc|].
  apply (@upstream_refusal_is_answered_200 demo_crypto demo_env epoch_day visit_request w
           [reply] 120 422 "{...}" (Some (JObj [("pesel", JStr "invalid")])) Hc).
  - left. reflexivity.
  - vm_compute. reflexivity.
Defined.

(** * Further properties of the sweep *)

Section SweepMore.
Context `{EdmCrypto}.
Variable env : Env.

(** With fewer non-revoked credentials than a page holds, an authorised
    sweep is over after one page: it answers [200] with one outcome per
    non-revoked credential, in the order of the store. *)
Theorem sweep_short_page_finishes (fuel : nat) (req : RefreshAll.Request) (w : World) :
  RefreshAll.checkAuth env req = true ->
  (length (List.filter active (edmAuth w)) < RefreshAll.batchSize)%nat ->
  exists results w',
    RefreshAll.POST env (S fuel) req w
    = RefreshAll.Finished
        (mkNextResponse 200
           (RefreshAll.Processed (length (List.filter active (edmAuth w))) results)) w'
    /\ map RefreshAll.o_id results = map id (List.filter active (edmAuth w))
    /\ page_fetches (trace w') = S (page_fetches (trace w)).
Proof.
  intros A L. unfold RefreshAll.POST. rewrite A. cbn [negb].
  destruct (while_true_short_page env fuel 0 [] w L) as (results & w' & E & M & P).
  exists results, w'. cbn [map app] in M. rewrite E. repeat split; auto.
  do 3 f_equal. apply (f_equal (@length string)) in M. now rewrite !length_map in M.
Qed.

(** Whatever goes wrong inside [refreshRecord] (a token that does not
    decrypt, a network error, an answer that is no JSON), it does not throw:
    for a record of the store it returns an outcome for that record, and it
    leaves alone which credentials exist and which are revoked, the users,
    the doctor configuration and the EDM API. *)
Theorem refreshRecord_always_reports (r : EdmAuth) (w : World) :
  stored (id r) (edmAuth w) ->
  exists o w',
    RefreshAll.refreshRecord env r w = (Return o, w')
    /\ RefreshAll.o_id o = id r
    /\ selection (edmAuth w') = selection (edmAuth w)
    /\ user w' = user w
    /\ edmDoctorDepartment w' = edmDoctorDepartment w
    /\ edmApi w' = edmApi w.
Proof.
  intros S. destruct (refreshRecord_returns env r w S) as (o & w' & E & I).
  pose proof (steady_refreshRecord env r w) as F. rewrite E in F.
  destruct F as [Fs Fu Fd Fa _]. exists o, w'. auto 10.
Qed.

End SweepMore.

Lemma sweep_short_page_finishes_witness :
  exists results w',
    @RefreshAll.POST demo_crypto demo_env 1 admin_request
      (world_of (credentials 3) [granted "A" None (Some 3600); refused 400 "invalid_grant"])
    = RefreshAll.Finished (mkNextResponse 200 (RefreshAll.Processed 3 results)) w'
    /\ map RefreshAll.o_id results = ["cred-3"; "cred-2"; "cred-1"].
Proof.
  destruct (@sweep_short_page_finishes demo_crypto demo_env 0 admin_request
              (world_of (credentials 3) [granted "A" None (Some 3600); refused 400 "invalid_grant"]))
    as (results & w' & E & M & _).
  - vm_compute. reflexivity.
  - apply Nat.ltb_lt. vm_compute. reflexivity.
  - exists results, w'. split; [exact E | exact M].
Defined.

Lemma refreshRecord_always_reports_witness :
  exists o w',
    @RefreshAll.refreshRecord demo_crypto demo_env (corrupted "cred-1")
      (world_of [corrupted "cred-1"] [])
    = (Return o, w')
    /\ RefreshAll.o_id o = "cred-1".
Proof.
  destruct (@refreshRecord_always_reports demo_crypto demo_env (corrupted "cred-1")
              (world_of [corrupted "cred-1"] []))
    as (o & w' & E & I & _).
  - vm_compute. left. reflexivity.
  - exists o, w'. split; [exact E | exact I].
Defined.

Section SweepOutcomes.
Context `{EdmCrypto}.
Variable env : Env.

(** A stored refresh token that does not decrypt costs the sweep no network
    call: the error is logged, the credential gets the failure update
    (count up by one, next attempt in an hour) and the outcome carries the
    error message. *)
Theorem sweep_records_undecryptable_token (r r0 : EdmAuth) (w : World) (m : string) :
  find_row (id r) (edmAuth w) = Some r0 ->
  decryptToken (encryptedRefreshToken r) = Throw m ->
  exists w' r1,
    RefreshAll.refreshRecord env r w
    = (Return (RefreshAll.mkOutcome (id r) false (Some m) None), w')
    /\ find_row (id r) (edmAuth w') = Some r1
    /\ refreshFailureCount r1 = refreshFailureCount r0 + 1
    /\ nextRefreshAt r1 = Some (clock w + 60 * 60 * 1000)
    /\ encryptedRefreshToken r1 = encryptedRefreshToken r0
    /\ fetches (trace w') = fetches (trace w)
    /\ In (EvConsole LError "refresh-all item error" [JStr (id r); JStr m]) (trace w').
Proof.
  intros F D.
  assert (S : stored (id r) (edmAuth w)) by (eapply find_row_Some_stored; eassumption).
  unfold RefreshAll.refreshRecord. run. rewrite D. write_row S.
  eexists (mkWorld _ _ _ _ _ _ _ _). eexists. split; [reflexivity|]. cbn [edmAuth trace].
  split; [eapply find_row_updated; eauto using keeps_selection_applyFailure|].
  repeat (split; [reflexivity|]). split.
  - rewrite !fetches_snoc. lia.
  - apply in_or_app. left. apply in_or_app. right. now left.
Qed.

(** A token endpoint that cannot be reached is recorded the same way, with
    the network error as the detail. *)
Theorem sweep_records_network_error (r r0 : EdmAuth) (w : World) (raw : string)
    (latency : Z) (m : string) (later : list (Z * FetchResult TokenJson)) :
  find_row (id r) (edmAuth w) = Some r0 ->
  decryptToken (encryptedRefreshToken r) = Return raw ->
  tokenEndpoint w = (latency, NetworkError m) :: later ->
  exists w' r1,
    RefreshAll.refreshRecord env r w
    = (Return (RefreshAll.mkOutcome (id r) false (Some m) None), w')
    /\ find_row (id r) (edmAuth w') = Some r1
    /\ refreshFailureCount r1 = refreshFailureCount r0 + 1
    /\ nextRefreshAt r1 = Some (clock w' + 60 * 60 * 1000)
    /\ encryptedAccessToken r1 = encryptedAccessToken r0
    /\ encryptedRefreshToken r1 = encryptedRefreshToken r0
    /\ tokenEndpoint w' = later.
Proof.
  intros F D T.
  assert (S : stored (id r) (edmAuth w)) by (eapply find_row_Some_stored; eassumption).
  unfold RefreshAll.refreshRecord. run. rewrite D, T. run. write_row S.
  eexists (mkWorld _ _ _ _ _ _ _ _). eexists. split; [reflexivity|].
  cbn [edmAuth clock tokenEndpoint].
  split; [eapply find_row_updated; eauto using keeps_selection_applyFailure|].
  repeat split.
Qed.

(** A grant ([200] with a non-empty [access_token]) makes the sweep store
    the token encrypted, reset the failure count, stamp the refresh and
    schedule the next one eight hours on; the outcome says so.  A non-empty
    [refresh_token] in the grant replaces the stored ciphertext and hash,
    otherwise both stay. *)
Theorem sweep_stores_granted_token (r : EdmAuth) (w : World)
    (raw : string) (latency st : Z) (txt : string) (data : TokenJson)
    (later : list (Z * FetchResult TokenJson)) (token : string) :
  find_row (id r) (edmAuth w) = Some r ->
  decryptToken (encryptedRefreshToken r) = Return raw ->
  tokenEndpoint w = (latency, Response st txt (Some data)) :: later ->
  ok (mkResp st txt (Some data)) = true ->
  access_token data = Some token ->
  truthy_string token = true ->
  exists w' r1,
    RefreshAll.refreshRecord env r w
    = (Return (RefreshAll.mkOutcome (id r) true None (Some (clock w' + 8 * 60 * 60 * 1000))),
       w')
    /\ find_row (id r) (edmAuth w') = Some r1
    /\ encryptedAccessToken r1 = Some (encryptToken (rng w) token)
    /\ refreshFailureCount r1 = 0
    /\ lastRefreshedAt r1 = Some (clock w')
    /\ nextRefreshAt r1 = Some (clock w' + 8 * 60 * 60 * 1000)
    /\ accessTokenExpiresAt r1
       = (if truthy_num (expires_in data)
          then Some (clock w' + default 0 (expires_in data) * 1000)
          else accessTokenExpiresAt r)
    /\ (if truthy_opt (refresh_token data)
        then encryptedRefreshToken r1
             = encryptToken (S (rng w)) (default "" (refresh_token data))
             /\ refreshTokenHash r1 = hashToken (default "" (refresh_token data))
        else encryptedRefreshToken r1 = encryptedRefreshToken r
             /\ refreshTokenHash r1 = refreshTokenHash r).
Proof.
  intros F D T K A N.
  assert (S : stored (id r) (edmAuth w)) by (eapply find_row_Some_stored; eassumption).
  unfold RefreshAll.refreshRecord. run. rewrite D, T. run. rewrite K. run.
  rewrite A, N. run.
  destruct (refresh_token data) as [t|]; [destruct t as [|c t]|];
    cbn [truthy_string truthy_opt]; run; write_row S;
    eexists (mkWorld _ _ _ _ _ _ _ _); eexists; (split; [reflexivity|]);
    cbn [edmAuth clock];
    (split; [eapply find_row_updated; eauto using keeps_selection_applySuccess|]);
    cbn [applySuccess encryptedAccessToken refreshFailureCount lastRefreshedAt
         nextRefreshAt accessTokenExpiresAt encryptedRefreshToken refreshTokenHash];
    repeat (split; [reflexivity|]);
    (split; [destruct (truthy_num (expires_in data)); reflexivity|]);
    split; reflexivity.
Qed.

End SweepOutcomes.

Lemma sweep_records_undecryptable_token_witness :
  exists w' r1,
    @RefreshAll.refreshRecord demo_crypto demo_env (corrupted "cred-1")
      (world_of [corrupted "cred-1"] [granted "A" None (Some 3600)])
    = (Return (RefreshAll.mkOutcome "cred-1" false
                 (Some "Unsupported state or unable to authenticate data") None), w')
    /\ find_row "cred-1" (edmAuth w') = Some r1
    /\ refreshFailureCount r1 = 3
    /\ nextRefreshAt r1 = Some 4600000.
Proof.
  destruct (@sweep_records_undecryptable_token demo_crypto demo_env
              (corrupted "cred-1") (corrupted "cred-1")
              (world_of [corrupted "cred-1"] [granted "A" None (Some 3600)])
              "Unsupported state or unable to authenticate data")
    as (w' & r1 & E & F & C & N & _); try (vm_compute; reflexivity).
  exists w', r1. exact (conj E (conj F (conj C N))).
Defined.

Lemma sweep_records_network_error_witness :
  exists w' r1,
    @RefreshAll.refreshRecord demo_crypto demo_env (stale "cred-1")
      (world_of [stale "cred-1"] [(30000, NetworkError "connect ETIMEDOUT")])
    = (Return (RefreshAll.mkOutcome "cred-1" false (Some "connect ETIMEDOUT") None), w')
    /\ find_row "cred-1" (edmAuth w') = Some r1
    /\ refreshFailureCount r1 = 3.
Proof.
  destruct (@sweep_records_network_error demo_crypto demo_env
              (stale "cred-1") (stale "cred-1")
              (world_of [stale "cred-1"] [(30000, NetworkError "connect ETIMEDOUT")])
              "refresh-1" 30000 "connect ETIMEDOUT" [])
    as (w' & r1 & E & F & C & _); try (vm_compute; reflexivity).
  exists w', r1. exact (conj E (conj F C)).
Defined.

Lemma sweep_stores_granted_token_witness :
  exists w' r1,
    @RefreshAll.refreshRecord demo_crypto demo_env (stale "cred-1")
      (world_of [stale "cred-1"] [granted "A" None (Some 3600)])
    = (Return (RefreshAll.mkOutcome "cred-1" true None
                 (Some (clock w' + 8 * 60 * 60 * 1000))), w')
    /\ find_row "cred-1" (edmAuth w') = Some r1
    /\ encryptedAccessToken r1 = Some "7:A"
    /\ refreshFailureCount r1 = 0.
Proof.
  destruct (@sweep_stores_granted_token demo_crypto demo_env (stale "cred-1")
              (world_of [stale "cred-1"] [granted "A" None (Some 3600)])
              "refresh-1" 250 200 "{...}" (mkTokenJson (Some "A") None (Some 3600)) [] "A")
    as (w' & r1 & E & F & A & C & _); try (vm_compute; reflexivity).
  exists w', r1. exact (conj E (conj F (conj A C))).
Defined.

(** * Further properties of the departments proxy *)

Lemma no_active_row (rows : list EdmAuth) :
  (forall r, In r rows -> revoked r = true) -> List.filter active rows = [].
Proof.
  induction rows as [|x rows IH]; intros R; [reflexivity|].
  simpl. unfold active at 1. rewrite (R x) by now left.
  apply IH. intros r I. apply R. now right.
Qed.

Section DepartmentsMore.
Context `{EdmCrypto}.
Variable env : Env.

(** With no credential, or only revoked ones, the proxy answers [404]; it
    has looked at the store once and done nothing else. *)
Theorem departments_without_credentials (w : World) :
  (forall r, In r (edmAuth w) -> revoked r = true) ->
  Departments.GET env w
  = (mkNextResponse 404 (JObj [("error", JStr "No EDM credentials configured")]),
     emit (EvFindFirst "edmAuth") w).
Proof.
  intros R. unfold Departments.GET, Departments.handler, bind, prisma_edmAuth_findFirst.
  now rewrite (no_active_row _ R).
Qed.

(** While the stored access token is good for more than a minute, the proxy
    asks the EDM for [<base>/departments/] with that token as bearer.  When
    the upstream status is one a response with a body can carry ([200] to
    [599], not [204], [205], [304]), status and body are handed on as they
    are: the body parsed, or [{ raw: text }] when it is no JSON.  The
    credentials are not written and the token endpoint is not called. *)
Theorem departments_proxies_upstream (w : World) (rec : EdmAuth) (token : string)
    (latency st : Z) (txt : string) (js : option JsValue)
    (later : list (Z * FetchResult JsValue)) :
  most_recent (List.filter active (edmAuth w)) = Some rec ->
  still_valid rec (clock w) = true ->
  decryptToken (default "" (encryptedAccessToken rec)) = Return token ->
  edmApi w = (latency, Response st txt js) :: later ->
  200 <= st <= 599 -> st <> 204 -> st <> 205 -> st <> 304 ->
  fst (Departments.GET env w)
  = mkNextResponse st
      (match js with
       | Some parsed => parsed
       | None => JObj [("raw", JStr txt)]
       end)
  /\ In (EvFetch (edm_base env +:+ "/departments/") (Some ("Bearer " +:+ token)) NoBody)
        (trace (snd (Departments.GET env w)))
  /\ fetches (trace (snd (Departments.GET env w))) = S (fetches (trace w))
  /\ edmAuth (snd (Departments.GET env w)) = edmAuth w
  /\ tokenEndpoint (snd (Departments.GET env w)) = tokenEndpoint w.
Proof.
  intros M V D A R N4 N5 N304.
  assert (B : body_status st = true).
  { unfold body_status.
    apply Z.eqb_neq in N4, N5, N304. rewrite N4, N5, N304.
    destruct (Z.leb_spec 200 st), (Z.leb_spec st 599); try lia; reflexivity. }
  unfold Departments.GET, Departments.handler, Departments.refreshAccessTokenIfNeeded,
    refreshAccessTokenIfNeeded_with, NextResponse_json.
  run. rewrite M. run. rewrite V, D, A. run. rewrite B. cbn [parse_or_raw json fst snd trace].
  split; [reflexivity|]. split; [|split; [|split; reflexivity]].
  - apply in_or_app. left. apply in_or_app. right. now left.
  - rewrite !fetches_snoc. cbn. lia.
Qed.

(** An upstream answer with a status no response with a body can carry
    ([204], [205], [304], or one outside [200..599]) is not handed on: the
    construction of the response throws and the proxy answers [500]
    [server_error] from its outer handler. *)
Theorem departments_cannot_hand_on_bodyless_status (w : World) (rec : EdmAuth)
    (token : string) (latency st : Z) (txt : string) (js : option JsValue)
    (later : list (Z * FetchResult JsValue)) :
  most_recent (List.filter active (edmAuth w)) = Some rec ->
  still_valid rec (clock w) = true ->
  decryptToken (default "" (encryptedAccessToken rec)) = Return token ->
  edmApi w = (latency, Response st txt js) :: later ->
  st < 200 \/ 599 < st \/ st = 204 \/ st = 205 \/ st = 304 ->
  exists message,
    fst (Departments.GET env w)
    = mkNextResponse 500
        (JObj [("error", JStr "server_error"); ("details", JStr message)]).
Proof.
  intros M V D A R.
  assert (B : body_status st = false).
  { unfold body_status.
    destruct (Z.leb_spec 200 st), (Z.leb_spec st 599); cbn [andb]; try reflexivity.
    destruct R as [R | [R | [-> | [-> | ->]]]]; try lia; reflexivity. }
  unfold Departments.GET, Departments.handler, Departments.refreshAccessTokenIfNeeded,
    refreshAccessTokenIfNeeded_with, NextResponse_json.
  run. rewrite M. run. rewrite V, D, A. run. rewrite B. eexists. reflexivity.
Qed.

(** When the EDM cannot be reached, the proxy answers [500] with the
    network error as the detail. *)
Theorem departments_upstream_unreachable (w : World) (rec : EdmAuth) (token : string)
    (latency : Z) (m : string) (later : list (Z * FetchResult JsValue)) :
  most_recent (List.filter active (edmAuth w)) = Some rec ->
  still_valid rec (clock w) = true ->
  decryptToken (default "" (encryptedAccessToken rec)) = Return token ->
  edmApi w = (latency, NetworkError m) :: later ->
  fst (Departments.GET env w)
  = mkNextResponse 500 (JObj [("error", JStr "server_error"); ("details", JStr m)]).
Proof.
  intros M V D A.
  unfold Departments.GET, Departments.handler, Departments.refreshAccessTokenIfNeeded,
    refreshAccessTokenIfNeeded_with.
  run. rewrite M. run. rewrite V, D, A. reflexivity.
Qed.

(** A stored access token that is still valid by its date but does not
    decrypt makes the proxy answer [502]; neither the token endpoint nor
    the EDM is called, and the store is not written. *)
Theorem departments_unreadable_access_token (w : World) (rec : EdmAuth) (m : string) :
  most_recent (List.filter active (edmAuth w)) = Some rec ->
  still_valid rec (clock w) = true ->
  decryptToken (default "" (encryptedAccessToken rec)) = Throw m ->
  fst (Departments.GET env w)
  = mkNextResponse 502
      (JObj [("error", JStr "failed_to_get_access_token"); ("details", JStr m)])
  /\ fetches (trace (snd (Departments.GET env w))) = fetches (trace w)
  /\ edmAuth (snd (Departments.GET env w)) = edmAuth w.
Proof.
  intros M V D.
  unfold Departments.GET, Departments.handler, Departments.refreshAccessTokenIfNeeded,
    refreshAccessTokenIfNeeded_with.
  run. rewrite M. run. rewrite V, D. cbn [fst snd trace edmAuth].
  split; [reflexivity|]. split; [|reflexivity].
  rewrite !fetches_snoc. lia.
Qed.

End DepartmentsMore.

Lemma departments_without_credentials_witness :
  @Departments.GET demo_crypto demo_env (world_of [retired "cred-1"] [])
  = (mkNextResponse 404 (JObj [("error", JStr "No EDM credentials configured")]),
     emit (EvFindFirst "edmAuth") (world_of [retired "cred-1"] [])).
Proof.
  apply (@departments_without_credentials demo_crypto demo_env
           (world_of [retired "cred-1"] [])).
  intros r [<- | []]. reflexivity.
Defined.

Lemma departments_proxies_upstream_witness :
  fst (@Departments.GET demo_crypto demo_env
         (clinic [live "cred-1"] []
                 [(80, Response 200 "[]" (Some (JObj [("count", JNum 0)])))]))
  = mkNextResponse 200 (JObj [("count", JNum 0)]).
Proof.
  refine (proj1 (@departments_proxies_upstream demo_crypto demo_env
                   (clinic [live "cred-1"] []
                           [(80, Response 200 "[]" (Some (JObj [("count", JNum 0)])))])
                   (live "cred-1") "live-access" 80 200 "[]"
                   (Some (JObj [("count", JNum 0)])) [] _ _ _ _ _ _ _ _));
    try (vm_compute; reflexivity); lia.
Defined.

Lemma departments_cannot_hand_on_bodyless_status_witness :
  exists message,
    fst (@Departments.GET demo_crypto demo_env
           (clinic [live "cred-1"] [] [(80, Response 304 "" None)]))
    = mkNextResponse 500
        (JObj [("error", JStr "server_error"); ("details", JStr message)]).
Proof.
  apply (@departments_cannot_hand_on_bodyless_status demo_crypto demo_env
           (clinic [live "cred-1"] [] [(80, Response 304 "" None)])
           (live "cred-1") "live-access" 80 304 "" None []);
    try (vm_compute; reflexivity).
  right. right. right. right. reflexivity.
Defined.

Lemma departments_upstream_unreachable_witness :
  fst (@Departments.GET demo_crypto demo_env
         (clinic [live "cred-1"] [] [(30000, NetworkError "connect ETIMEDOUT")]))
  = mkNextResponse 500
      (JObj [("error", JStr "server_error"); ("details", JStr "connect ETIMEDOUT")]).
Proof.
  refine (@departments_upstream_unreachable demo_crypto demo_env
            (clinic [live "cred-1"] [] [(30000, NetworkError "connect ETIMEDOUT")])
            (live "cred-1") "live-access" 30000 "connect ETIMEDOUT" [] _ _ _ _);
    vm_compute; reflexivity.
Defined.

Lemma departments_unreadable_access_token_witness :
  fst (@Departments.GET demo_crypto demo_env (clinic [garbled "cred-1"] [] []))
  = mkNextResponse 502
      (JObj [("error", JStr "failed_to_get_access_token");
             ("details", JStr "Unsupported state or unable to authenticate data")]).
Proof.
  refine (proj1 (@departments_unreadable_access_token demo_crypto demo_env
                   (clinic [garbled "cred-1"] [] []) (garbled "cred-1")
                   "Unsupported state or unable to authenticate data" _ _ _));
    vm_compute; reflexivity.
Defined.

(** * Further properties of the request path *)

Section ProviderMore.
Context `{EdmCrypto}.
Variable env : Env.

(** However it ends, [refreshAccessTokenIfNeeded] leaves alone which
    credentials exist and which are revoked, the users, the doctor
    configuration and the replies of the EDM API. *)
Theorem refresh_leaves_the_rest_alone (failure : string) (rec : EdmAuth) (w : World) :
  selection (edmAuth (snd (refreshAccessTokenIfNeeded_with env failure rec w)))
  = selection (edmAuth w)
  /\ user (snd (refreshAccessTokenIfNeeded_with env failure rec w)) = user w
  /\ edmDoctorDepartment (snd (refreshAccessTokenIfNeeded_with env failure rec w))
     = edmDoctorDepartment w
  /\ edmApi (snd (refreshAccessTokenIfNeeded_with env failure rec w)) = edmApi w.
Proof.
  destruct (steady_refreshAccessTokenIfNeeded env failure rec w) as [Fs Fu Fd Fa _].
  auto.
Qed.

(** A granted token that is good for more than a minute is served from the
    store from then on: asked again with the updated record, the request
    path takes the fast path, hands back [decryptToken] of the ciphertext
    it has just stored and touches nothing. *)
Theorem refreshed_token_is_served_from_store (failure : string) (r : EdmAuth) (w : World)
    (raw : string) (latency st : Z) (txt : string) (data : TokenJson)
    (later : list (Z * FetchResult TokenJson)) (token : string) (seconds : Z) :
  find_row (id r) (edmAuth w) = Some r ->
  still_valid r (clock w) = false ->
  decryptToken (encryptedRefreshToken r) = Return raw ->
  tokenEndpoint w = (latency, Response st txt (Some data)) :: later ->
  ok (mkResp st txt (Some data)) = true ->
  access_token data = Some token ->
  truthy_string token = true ->
  truthy_string (encryptToken (rng w) token) = true ->
  expires_in data = Some seconds ->
  60 < seconds ->
  exists w' r1,
    refreshAccessTokenIfNeeded_with env failure r w = (Return token, w')
    /\ find_row (id r) (edmAuth w') = Some r1
    /\ refreshAccessTokenIfNeeded_with env failure r1 w'
       = (decryptToken (encryptToken (rng w) token), w').
Proof.
  intros F V D T K A N C X L.
  assert (S : stored (id r) (edmAuth w)) by (eapply find_row_Some_stored; eassumption).
  assert (Z : truthy_num (Some seconds) = true).
  { cbn. destruct (Z.eqb_spec seconds 0); [lia | reflexivity]. }
  unfold refreshAccessTokenIfNeeded_with at 1. run. rewrite V, D, T. run. rewrite K. run.
  rewrite A. cbn [truthy_opt default negb]. rewrite N, X, Z. run.
  change (Datatypes.id token) with token.
  change (default 0 (Some seconds)) with seconds.
  destruct (truthy_opt (refresh_token data)); run; write_row S;
    eexists (mkWorld _ _ _ _ _ _ _ _); eexists; (split; [reflexivity|]);
    (split; [cbn [edmAuth]; eapply find_row_updated;
             eauto using keeps_selection_applySuccess|]);
    unfold refreshAccessTokenIfNeeded_with, still_valid; run;
    cbn [applySuccess encryptedAccessToken accessTokenExpiresAt truthy_opt default];
    rewrite C; cbn [andb];
    match goal with
    | |- context [?a <? ?b] => replace (a <? b) with true by (symmetry; apply Z.ltb_lt; lia)
    end;
    now destruct (decryptToken _).
Qed.

End ProviderMore.

Lemma refreshed_token_is_served_from_store_witness :
  exists w' r1,
    @refreshAccessTokenIfNeeded_with demo_crypto demo_env "EDM refresh failed: "
      (stale "cred-1") (world_of [stale "cred-1"] [granted "A" None (Some 3600)])
    = (Return "A", w')
    /\ find_row "cred-1" (edmAuth w') = Some r1
    /\ @refreshAccessTokenIfNeeded_with demo_crypto demo_env "EDM refresh failed: " r1 w'
       = (Return "A", w').
Proof.
  destruct (@refreshed_token_is_served_from_store demo_crypto demo_env
              "EDM refresh failed: " (stale "cred-1")
              (world_of [stale "cred-1"] [granted "A" None (Some 3600)])
              "refresh-1" 250 200 "{...}" (mkTokenJson (Some "A") None (Some 3600)) [] "A" 3600)
    as (w' & r1 & E & F & G); try (vm_compute; reflexivity).
  exists w', r1. exact (conj E (conj F G)).
Defined.

(** * Further properties of the patient payload *)

Lemma removeEmpty_fixes_sparse (v : JsValue) :
  sparse v = true -> OrderVisit.removeEmpty v = v.
Proof.
  induction v as [| | b | n | s | fields IH] using JsValue_ind; try reflexivity.
  rewrite removeEmpty_obj. cbn [sparse]. intros P. f_equal.
  induction IH as [|[key val] rest Hval _ IHrest]; [reflexivity|].
  cbn [forallb snd] in P. apply andb_prop in P as [Pv Pr].
  rewrite removeEmpty_keys_cons, (IHrest Pr). cbn [snd] in Hval.
  destruct val as [| | b | n | [|c s] | inner]; try discriminate; try reflexivity.
  rewrite populated_obj in Pv. apply andb_prop in Pv as [Ne Pi].
  rewrite (Hval Pi). now destruct inner.
Qed.

(** Pruning a payload a second time changes nothing. *)
Theorem removeEmpty_idempotent (v : JsValue) :
  OrderVisit.removeEmpty (OrderVisit.removeEmpty v) = OrderVisit.removeEmpty v.
Proof. apply removeEmpty_fixes_sparse, removeEmpty_sparse. Qed.

(** [removeEmpty] only removes: every binding it leaves in an object is a
    binding of the input, pruned in turn. *)
Theorem removeEmpty_only_removes (fields : list (string * JsValue)) (key : string)
    (val : JsValue) :
  In (key, val) (OrderVisit.removeEmpty_keys fields) ->
  exists val0, In (key, val0) fields /\ val = OrderVisit.removeEmpty val0.
Proof.
  induction fields as [|[k v] rest IH]; [intros []|].
  rewrite removeEmpty_keys_cons. intros I.
  assert (Rest : In (key, val) (OrderVisit.removeEmpty_keys rest) ->
                 exists val0, In (key, val0) ((k, v) :: rest)
                              /\ val = OrderVisit.removeEmpty val0).
  { intros I'. destruct (IH I') as (val0 & I0 & E). exists val0. split; [now right | exact E]. }
  assert (Here : (k, OrderVisit.removeEmpty v) = (key, val) ->
                 exists val0, In (key, val0) ((k, v) :: rest)
                              /\ val = OrderVisit.removeEmpty val0).
  { intros E. injection E as <- <-. exists v. split; [now left | reflexivity]. }
  destruct v as [| | b | n | [|c s] | inner]; auto;
    try (destruct I as [E | I']; [apply Here; exact E | auto]).
  destruct (OrderVisit.removeEmpty (JObj inner)) as [| | | | |[|kv kept]] eqn:R; auto;
    destruct I as [E | I']; auto; apply Here; now rewrite R.
Qed.

Lemma removeEmpty_only_removes_witness :
  exists val0,
    In ("address", val0)
       [("telephone", JNull);
        ("address", JObj [("country", JStr "PL"); ("street", JStr "")])]
    /\ JObj [("country", JStr "PL")] = OrderVisit.removeEmpty val0.
Proof.
  apply (removeEmpty_only_removes
           [("telephone", JNull);
            ("address", JObj [("country", JStr "PL"); ("street", JStr "")])]
           "address" (JObj [("country", JStr "PL")])).
  vm_compute. left. reflexivity.
Defined.

(** ** Reading a pruned object *)

Lemma js_get_set_same (key : string) (v : JsValue) (fields : list (string * JsValue)) :
  js_get key (js_set key v fields) = v.
Proof.
  induction fields as [|[k v0] rest IH]; simpl.
  - now rewrite String.eqb_refl.
  - destruct (String.eqb k key) eqn:E; simpl; now rewrite E.
Qed.

Lemma js_get_set_other (key other : string) (v : JsValue) (fields : list (string * JsValue)) :
  key <> other -> js_get other (js_set key v fields) = js_get other fields.
Proof.
  intros N. induction fields as [|[k v0] rest IH]; simpl.
  - apply String.eqb_neq in N. now rewrite N.
  - destruct (String.eqb_spec k key) as [-> | _]; simpl.
    + apply String.eqb_neq in N. now rewrite N.
    + now rewrite IH.
Qed.

Lemma js_get_if_set_other (b : bool) (key other : string) (v : JsValue)
    (fields : list (string * JsValue)) :
  key <> other ->
  js_get other (if b then js_set key v fields else fields) = js_get other fields.
Proof. intros N. destruct b; [now apply js_get_set_other | reflexivity]. Qed.

Lemma js_get_if_set_same (b : bool) (key : string) (v : JsValue)
    (fields : list (string * JsValue)) :
  js_get key (if b then js_set key v fields else fields)
  = if b then v else js_get key fields.
Proof. destruct b; [apply js_get_set_same | reflexivity]. Qed.

Lemma js_get_absent (key : string) (fields : list (string * JsValue)) :
  ~ In key (map fst fields) -> js_get key fields = JUndefined.
Proof.
  induction fields as [|[k v] rest IH]; simpl; [reflexivity|].
  intros N. destruct (String.eqb_spec k key) as [E | _]; [tauto|].
  apply IH. tauto.
Qed.

Lemma js_set_In (key k : string) (v : JsValue) (fields : list (string * JsValue)) :
  In k (map fst (js_set key v fields)) -> k = key \/ In k (map fst fields).
Proof.
  induction fields as [|[k0 v0] rest IH]; simpl.
  - intros [E | []]. now left.
  - destruct (String.eqb k0 key); simpl; intros [E | I]; auto.
    destruct (IH I); auto.
Qed.

Lemma js_set_NoDup (key : string) (v : JsValue) (fields : list (string * JsValue)) :
  List.NoDup (map fst fields) -> List.NoDup (map fst (js_set key v fields)).
Proof.
  induction fields as [|[k0 v0] rest IH]; simpl; intros N.
  - constructor; [intros [] | constructor].
  - inversion N as [|? ? Hin Hrest]; subst.
    destruct (String.eqb_spec k0 key) as [E | E]; simpl; constructor; auto.
    intros I. destruct (js_set_In _ _ _ _ I); [congruence | contradiction].
Qed.

Lemma js_set_if_NoDup (b : bool) (key : string) (v : JsValue)
    (fields : list (string * JsValue)) :
  List.NoDup (map fst fields) ->
  List.NoDup (map fst (if b then js_set key v fields else fields)).
Proof. destruct b; [apply js_set_NoDup | trivial]. Qed.

Lemma removeEmpty_keys_In (key : string) (fields : list (string * JsValue)) :
  In key (map fst (OrderVisit.removeEmpty_keys fields)) -> In key (map fst fields).
Proof.
  induction fields as [|[k v] rest IH]; [intros []|].
  rewrite removeEmpty_keys_cons. cbn [map fst In].
  destruct v as [| | b | n | [|c s] | inner]; auto;
    try (cbn [map fst In]; intros [E | I]; auto).
  destruct (OrderVisit.removeEmpty (JObj inner)) as [| | | | |[|kv kept]];
    cbn [map fst In]; auto; intros [E | I]; auto.
Qed.

(** In an object (its keys are distinct), a key is bound after pruning to
    the pruned value of what it was bound to before. *)
Lemma js_get_removeEmpty (key : string) (fields : list (string * JsValue)) :
  List.NoDup (map fst fields) ->
  js_get key (OrderVisit.removeEmpty_keys fields) = pruned (js_get key fields).
Proof.
  induction fields as [|[k v] rest IH]; [reflexivity|].
  cbn [map fst]. intros N. inversion N as [|? ? Hin Hrest]; subst.
  rewrite removeEmpty_keys_cons. cbn [js_get].
  destruct (String.eqb_spec k key) as [-> | Ne].
  - assert (Gone : js_get key (OrderVisit.removeEmpty_keys rest) = JUndefined).
    { apply js_get_absent. intros I. apply Hin. now apply removeEmpty_keys_In. }
    destruct v as [| | b | n | [|c s] | inner]; cbn [pruned js_get];
      rewrite ?String.eqb_refl; auto.
    destruct (OrderVisit.removeEmpty (JObj inner)) as [| | | | |[|kv kept]];
      cbn [js_get]; rewrite ?String.eqb_refl; auto.
  - apply String.eqb_neq in Ne.
    destruct v as [| | b | n | [|c s] | inner]; cbn [js_get]; rewrite ?Ne; auto.
    destruct (OrderVisit.removeEmpty (JObj inner)) as [| | | | |[|kv kept]];
      cbn [js_get]; rewrite ?Ne; auto.
Qed.

(** The keys of the payload are distinct before it is pruned, whatever
    was assigned on the way. *)
Ltac distinct_keys :=
  repeat first
    [ apply js_set_NoDup
    | apply js_set_if_NoDup
    | match goal with
      | |- List.NoDup (map fst (if ?b then _ else _)) => destruct b
      | |- List.NoDup (map fst (match ?o with Some _ => _ | None => _ end)) => destruct o
      end ];
  cbn [map fst];
  repeat (constructor; [cbn [In]; intuition discriminate|]); constructor.

(** From [buildPatientPayload] to the reading of one key in the object it
    prunes. *)
Ltac open_payload :=
  unfold OrderVisit.buildPatientPayload; cbv zeta; rewrite removeEmpty_obj;
  cbn [payload_field];
  match goal with
  | |- context [OrderVisit.removeEmpty_keys ?f] =>
      let fields := fresh "fields" in
      let N := fresh "N" in
      set (fields := f);
      assert (N : List.NoDup (map fst fields)) by (subst fields; distinct_keys);
      rewrite !js_get_removeEmpty by exact N; subst fields; clear N
  end.

(** Case analysis on a test that has no test inside it. *)
Ltac innermost_test :=
  match goal with
  | |- context [if ?b then _ else _] =>
      lazymatch b with
      | context [if _ then _ else _] => fail
      | context [match _ with Some _ => _ | None => _ end] => fail
      | _ => destruct b eqn:?
      end
  | |- context [match ?o with Some _ => _ | None => _ end] =>
      lazymatch o with
      | context [if _ then _ else _] => fail
      | context [match _ with Some _ => _ | None => _ end] => fail
      | _ => destruct o eqn:?
      end
  end.

(** Follows a key through every assignment and every test. *)
Ltac follow_key :=
  repeat first
    [ rewrite js_get_set_same
    | rewrite js_get_set_other by discriminate
    | rewrite js_get_if_set_other by discriminate
    | rewrite js_get_if_set_same
    | rewrite js_get_absent by (cbn [map fst In]; intuition discriminate)
    | progress cbn [truthy negb OrderVisit.or_null truthy_opt]
    | innermost_test ].

(** Reads a key the assignments on the way do not write. *)
Ltac read_through :=
  repeat first
    [ rewrite js_get_set_other by discriminate
    | rewrite js_get_if_set_other by discriminate
    | match goal with
      | |- context [js_get _ (if ?b then _ else _)] => destruct b
      | |- context [js_get _ (match ?o with Some _ => _ | None => _ end)] => destruct o
      end ];
  reflexivity.

(** Whatever the input, the payload says the patient lives in Poland, has
    blood type ["N"] and is active; both addresses shrink to their country;
    the keys that are always [null] ([second_telephone], [nfz], [rights])
    never reach it. *)
Theorem patient_payload_fixed_part (input : OrderVisit.PatientInput) :
  let payload := OrderVisit.buildPatientPayload input in
  payload_field "country" payload = JStr "PL"
  /\ payload_field "blood_type" payload = JStr "N"
  /\ payload_field "active" payload = JBool true
  /\ payload_field "residence_address" payload = JObj [("country", JStr "PL")]
  /\ payload_field "registration_address" payload = JObj [("country", JStr "PL")]
  /\ payload_field "second_telephone" payload = JUndefined
  /\ payload_field "nfz" payload = JUndefined
  /\ payload_field "rights" payload = JUndefined.
Proof.
  unfold OrderVisit.buildPatientPayload. cbv zeta. rewrite removeEmpty_obj.
  cbn [payload_field].
  match goal with |- context [OrderVisit.removeEmpty_keys ?f] => set (fields := f) end.
  assert (N : List.NoDup (map fst fields)) by (subst fields; distinct_keys).
  rewrite !js_get_removeEmpty by exact N. subst fields. clear N.
  repeat split; read_through.
Qed.

(** The payload always names a sex, and it is a non-empty string. *)
Theorem patient_payload_names_a_sex (input : OrderVisit.PatientInput) :
  exists c rest,
    payload_field "sex" (OrderVisit.buildPatientPayload input) = JStr (String c rest).
Proof.
  open_payload. follow_key;
    try (eexists; eexists; reflexivity);
    repeat match goal with
           | G : context [js_get _ _] |- _ =>
               first [ rewrite js_get_set_same in G
                     | rewrite js_get_set_other in G by discriminate
                     | rewrite js_get_absent in G
                         by (cbn [map fst In]; intuition discriminate) ]
           end;
    cbn [truthy negb] in *; try discriminate;
    match goal with
    | G : truthy_opt ?o = true |- context [OrderVisit.or_null ?o] =>
        destruct o as [[|c rest]|]; try discriminate; eexists; eexists; reflexivity
    end.
Qed.

(** A date of birth given in the request is the one in the payload,
    whatever the PESEL says. *)
Theorem explicit_date_of_birth_wins (input : OrderVisit.PatientInput) (c : ascii)
    (rest : string) :
  OrderVisit.in_date_of_birth input = Some (String c rest) ->
  payload_field "date_of_birth" (OrderVisit.buildPatientPayload input)
  = JStr (String c rest).
Proof.
  intros D. open_payload. rewrite D. cbn [truthy_opt truthy_string negb andb].
  follow_key; reflexivity.
Qed.

Lemma explicit_date_of_birth_wins_witness :
  payload_field "date_of_birth"
    (OrderVisit.buildPatientPayload
       (OrderVisit.mkPatientInput "Jan" "Kowalski" None (Some "44051401359")
                                  (Some "1950-01-02") None))
  = JStr "1950-01-02".
Proof.
  apply (explicit_date_of_birth_wins
           (OrderVisit.mkPatientInput "Jan" "Kowalski" None (Some "44051401359")
                                      (Some "1950-01-02") None)
           "1" "950-01-02").
  reflexivity.
Defined.


(** Every field of the input that holds something reaches the payload
    under its own key; one that is missing or empty leaves no key. *)
Theorem patient_payload_passes_on (input : OrderVisit.PatientInput) :
  let payload := OrderVisit.buildPatientPayload input in
  let given (o : option string) :=
    if truthy_opt o then JStr (default "" o) else JUndefined in
  payload_field "name" payload = given (Some (OrderVisit.in_name input))
  /\ payload_field "surname" payload = given (Some (OrderVisit.in_surname input))
  /\ payload_field "telephone" payload = given (OrderVisit.in_telephone input)
  /\ payload_field "email" payload = given (OrderVisit.in_email input)
  /\ payload_field "pesel" payload = given (OrderVisit.in_pesel input).
Proof.
  intros payload given. subst payload given. open_payload.
  destruct input as [n s e p d t].
  cbn [OrderVisit.in_name OrderVisit.in_surname OrderVisit.in_email OrderVisit.in_pesel
       OrderVisit.in_date_of_birth OrderVisit.in_telephone].
  repeat split.
  - follow_key; destruct n; try discriminate; reflexivity.
  - follow_key; destruct s; try discriminate; reflexivity.
  - follow_key; destruct t as [[|? ?]|]; try discriminate; reflexivity.
  - follow_key; destruct e as [[|? ?]|]; try discriminate; reflexivity.
  - follow_key; subst; try discriminate; try reflexivity;
      match goal with
      | G : truthy_string ?x = _ |- _ => destruct x; try discriminate; reflexivity
      end.
Qed.

(** * Further properties of the gate, the PESEL and the order-visit route *)

Section GateMore.
Variable env : Env.

(** With no [ADMIN_REFRESH_KEY] configured the key compared against is the
    empty string: a request that sends an empty [x-admin-key], or
    [Authorization: Bearer ] with nothing after it, is let in. *)
Theorem unset_key_admits_the_empty_secret (req : RefreshAll.Request) :
  env !! "ADMIN_REFRESH_KEY" = None ->
  RefreshAll.headers req !! "x-admin-key" = Some ""
  \/ RefreshAll.headers req !! "authorization" = Some "Bearer " ->
  RefreshAll.checkAuth env req = true.
Proof.
  intros U P. apply checkAuth_iff. left. unfold presents_secret, env_or. rewrite U.
  cbn [default]. tauto.
Qed.

End GateMore.

Lemma unset_key_admits_the_empty_secret_witness :
  @RefreshAll.checkAuth (∅ : Env) (RefreshAll.mkRequest {[ "x-admin-key" := "" ]}) = true.
Proof.
  apply (unset_key_admits_the_empty_secret ∅
           (RefreshAll.mkRequest {[ "x-admin-key" := "" ]})).
  - vm_compute. reflexivity.
  - left. vm_compute. reflexivity.
Defined.

(** ** parsePesel *)

Lemma length_append (a b : string) :
  String.length (a +:+ b) = (String.length a + String.length b)%nat.
Proof. induction a as [|c a IH]; simpl; [reflexivity | now rewrite IH]. Qed.

Lemma digit_range (c : ascii) : OrderVisit.is_digit c = true -> 0 <= OrderVisit.digit c <= 9.
Proof.
  unfold OrderVisit.is_digit, OrderVisit.digit. intros D.
  apply andb_prop in D as [L U]. apply Nat.leb_le in L, U. lia.
Qed.

Lemma all_digits_get (s : string) (i : nat) (c : ascii) :
  OrderVisit.all_digits s = true -> String.get i s = Some c -> OrderVisit.is_digit c = true.
Proof.
  revert i. induction s as [|a s IH]; intros i D G; [discriminate|].
  cbn [OrderVisit.all_digits] in D. apply andb_prop in D as [Da Ds].
  destruct i as [|i]; cbn [String.get] in G.
  - now injection G as <-.
  - eapply IH; eassumption.
Qed.

Lemma parseInt2_range (s : string) (i : nat) :
  OrderVisit.all_digits s = true -> 0 <= OrderVisit.parseInt2 s i <= 99.
Proof.
  intros D. unfold OrderVisit.parseInt2.
  destruct (String.get i s) as [a|] eqn:A; [|lia].
  destruct (String.get (S i) s) as [b|] eqn:B; [|lia].
  pose proof (digit_range a (all_digits_get s i a D A)).
  pose proof (digit_range b (all_digits_get s (S i) b D B)). lia.
Qed.

Lemma in_range (lo : Z) (n : nat) (x : Z) (P : Z -> bool) :
  forallb (fun k => P (lo + Z.of_nat k)) (seq 0 n) = true ->
  lo <= x < lo + Z.of_nat n -> P x = true.
Proof.
  intros F R. rewrite forallb_forall in F.
  replace x with (lo + Z.of_nat (Z.to_nat (x - lo))) by lia.
  apply F. apply in_seq. lia.
Qed.

Lemma pretty_year_length (y : Z) :
  1800 <= y < 2300 -> String.length (pretty y) = 4%nat.
Proof.
  intros R. apply Nat.eqb_eq.
  apply (in_range 1800 500 y (fun y => (String.length (pretty y) =? 4)%nat)); [|lia].
  vm_compute. reflexivity.
Qed.

Lemma pad2_length (n : Z) : 0 <= n < 100 -> String.length (OrderVisit.pad2 n) = 2%nat.
Proof.
  intros R. apply Nat.eqb_eq.
  apply (in_range 0 100 n (fun n => (String.length (OrderVisit.pad2 n) =? 2)%nat)); [|lia].
  vm_compute. reflexivity.
Qed.

(** [parsePesel] gives all or nothing: either no field at all, or (only
    for a string of exactly eleven digits) a date of birth of ten
    characters together with one of the two sexes. *)
Theorem parsePesel_all_or_nothing (pesel : string) :
  OrderVisit.parsePesel pesel = OrderVisit.mkParsed None None
  \/ (String.length pesel = 11%nat
      /\ OrderVisit.all_digits pesel = true
      /\ exists date,
           String.length date = 10%nat
           /\ OrderVisit.dateOfBirth (OrderVisit.parsePesel pesel) = Some date
           /\ (OrderVisit.sex (OrderVisit.parsePesel pesel) = Some "Mężczyzna"
               \/ OrderVisit.sex (OrderVisit.parsePesel pesel) = Some "Kobieta")).
Proof.
  unfold OrderVisit.parsePesel.
  destruct ((String.length pesel =? 11)%nat && OrderVisit.all_digits pesel) eqn:E;
    cbn [negb]; [|now left].
  apply andb_prop in E as [L D]. apply Nat.eqb_eq in L.
  pose proof (parseInt2_range pesel 0 D) as Y.
  pose proof (parseInt2_range pesel 2 D) as M.
  pose proof (parseInt2_range pesel 4 D) as Dd.
  set (year := OrderVisit.parseInt2 pesel 0) in *.
  set (month := OrderVisit.parseInt2 pesel 2) in *.
  set (day := OrderVisit.parseInt2 pesel 4) in *.
  repeat match goal with
         | |- context [if ?a && ?b then _ else _] =>
             let C := fresh "C" in
             destruct (a && b) eqn:C;
               [apply andb_prop in C as [? ?] | clear C]
         end;
    try (now left);
    (right; split; [exact L|]; split; [exact D|];
     eexists; split; [|split; [reflexivity|]];
     [ rewrite !length_append, pretty_year_length, !pad2_length by lia; reflexivity
     | cbn [OrderVisit.sex]; destruct (_ =? 1); auto ]).
Qed.

(** ** The order-visit route *)

(** Finds an event in a trace that was built by appending. *)
Ltac find_event :=
  first [ apply in_or_app; right; now left | apply in_or_app; left; find_event ].

(** Unfolds the order-visit route down to the primitives. *)
Ltac open_order_visit :=
  unfold OrderVisit.POST, OrderVisit.handler, OrderVisit.prisma_user_findUnique,
    OrderVisit.prisma_edmDoctorDepartment_findFirst, OrderVisit.prisma_user_update,
    OrderVisit.refreshAccessTokenIfNeeded, refreshAccessTokenIfNeeded_with;
  run.

Lemma update_user_found (key : string) (v : JsValue) (rows : list User) (u : User) :
  List.find (fun x => String.eqb (user_id x) key) rows = Some u ->
  exists rows',
    OrderVisit.update_user key v rows = Some rows'
    /\ List.find (fun x => String.eqb (user_id x) key) rows'
       = Some (mkUser (user_id u) (match v with JUndefined => externalPatientId u | _ => v end)).
Proof.
  induction rows as [|x rows IH]; simpl; [discriminate|].
  destruct (String.eqb (user_id x) key) eqn:E.
  - intros F. injection F as <-. eexists. split; [reflexivity|]. simpl. now rewrite E.
  - intros F. destruct (IH F) as (rows' & Up & Fr). rewrite Up. simpl.
    eexists. split; [reflexivity|]. simpl. now rewrite E.
Qed.

Section OrderVisitMore.
Context `{EdmCrypto}.
Variable env : Env.
Variable isoDate : Z -> string.

(** A body without [userId], or without [name] or [surname], is answered
    [400] before the route touches anything: no lookup, no call, no log. *)
Theorem order_visit_checks_the_body_first (req : OrderVisit.Request) (body : OrderVisit.Body)
    (w : World) :
  OrderVisit.req_json req = Some body ->
  (truthy_opt (OrderVisit.userId body) = false ->
   OrderVisit.POST env isoDate req w
   = (mkNextResponse 400 (JObj [("error", JStr "userId is required")]), w))
  /\ (truthy_opt (OrderVisit.userId body) = true ->
      truthy_opt (OrderVisit.name body) && truthy_opt (OrderVisit.surname body) = false ->
      OrderVisit.POST env isoDate req w
      = (mkNextResponse 400 (JObj [("error", JStr "name and surname required")]), w)).
Proof.
  intros J. open_order_visit. rewrite J. split.
  - now intros ->.
  - intros -> N. cbn [negb].
    destruct (truthy_opt (OrderVisit.name body)), (truthy_opt (OrderVisit.surname body));
      try discriminate; reflexivity.
Qed.

(** An unknown user is answered [404 user_not_found] after the one lookup;
    a known user without any usable credential [404] after the second.
    Neither run reaches the network. *)
Theorem order_visit_looks_up_before_calling (req : OrderVisit.Request)
    (body : OrderVisit.Body) (w : World) :
  OrderVisit.req_json req = Some body ->
  truthy_opt (OrderVisit.userId body) = true ->
  truthy_opt (OrderVisit.name body) = true ->
  truthy_opt (OrderVisit.surname body) = true ->
  (List.find (fun x => String.eqb (user_id x) (default "" (OrderVisit.userId body)))
             (user w) = None ->
   OrderVisit.POST env isoDate req w
   = (mkNextResponse 404 (JObj [("error", JStr "user_not_found")]),
      emit (EvFindFirst "user") w))
  /\ (forall u,
        List.find (fun x => String.eqb (user_id x) (default "" (OrderVisit.userId body)))
                  (user w) = Some u ->
        (forall r, In r (edmAuth w) -> revoked r = true) ->
        OrderVisit.POST env isoDate req w
        = (mkNextResponse 404 (JObj [("error", JStr "No EDM credentials configured")]),
           emit (EvFindFirst "edmAuth") (emit (EvFindFirst "user") w))).
Proof.
  intros J U N S. open_order_visit. rewrite J, U, N, S. cbn [negb orb]. split.
  - now intros ->.
  - intros u -> R. run. now rewrite (no_active_row _ R).
Qed.

(** For a user the EDM knows already, with a live access token and a
    doctor and an office configured, the route makes exactly one call: it
    posts [{ patient, doctor, office, date }] to [<base>/visits/] with the
    stored token as bearer (the date is the one of the request, or today),
    and answers [200 { ok: true, patientId, visit }].  No patient is
    created and the users are not written. *)
Theorem order_visit_books_for_known_patient (req : OrderVisit.Request)
    (body : OrderVisit.Body) (w : World) (u : User) (rec : EdmAuth) (token : string)
    (cfg : EdmDoctorDepartment) (doctor office : Z)
    (latency st : Z) (txt : string) (js : option JsValue)
    (later : list (Z * FetchResult JsValue)) :
  OrderVisit.req_json req = Some body ->
  truthy_opt (OrderVisit.userId body) = true ->
  truthy_opt (OrderVisit.name body) = true ->
  truthy_opt (OrderVisit.surname body) = true ->
  List.find (fun x => String.eqb (user_id x) (default "" (OrderVisit.userId body)))
            (user w) = Some u ->
  truthy (externalPatientId u) = true ->
  most_recent (List.filter active (edmAuth w)) = Some rec ->
  still_valid rec (clock w) = true ->
  decryptToken (default "" (encryptedAccessToken rec)) = Return token ->
  OrderVisit.latest (edmDoctorDepartment w) = Some cfg ->
  doctorExternalId cfg = Some doctor -> doctor <> 0 ->
  departmentExternalId cfg = Some office -> office <> 0 ->
  edmApi w = (latency, Response st txt js) :: later ->
  ok (mkResp st txt js) = true ->
  fst (OrderVisit.POST env isoDate req w)
  = mkNextResponse 200
      (JObj [("ok", JBool true); ("patientId", externalPatientId u);
             ("visit", parse_or_raw (mkResp st txt js))])
  /\ In (EvFetch (edm_base env +:+ "/visits/") (Some ("Bearer " +:+ token))
                 (JsonBody
                    (JObj [("patient", JStr (OrderVisit.js_String (externalPatientId u)));
                           ("doctor", JStr (pretty doctor));
                           ("office", JStr (pretty office));
                           ("date", JStr (default (isoDate (clock w))
                                                  (OrderVisit.visitDate body)))])))
        (trace (snd (OrderVisit.POST env isoDate req w)))
  /\ fetches (trace (snd (OrderVisit.POST env isoDate req w))) = S (fetches (trace w))
  /\ user (snd (OrderVisit.POST env isoDate req w)) = user w.
Proof.
  intros J U N S Fu P M V D L Dd Dn Od On A K.
  open_order_visit. rewrite J, U, N, S. cbn [negb orb]. rewrite Fu. run. rewrite M. run.
  rewrite V, D. run.
  assert (E : match externalPatientId u with JUndefined => JNull | v => v end
              = externalPatientId u) by (destruct (externalPatientId u); try reflexivity; discriminate).
  rewrite E, P. cbn [negb]. run. rewrite L, Dd, Od. cbn [truthy_num default].
  replace (doctor =? 0) with false by (symmetry; now apply Z.eqb_neq).
  replace (office =? 0) with false by (symmetry; now apply Z.eqb_neq).
  cbn [negb orb]. run. rewrite A. run. rewrite K. run.
  split; [reflexivity|]. split; [|split; [|reflexivity]].
  - apply in_or_app. left. apply in_or_app. right. now left.
  - rewrite !fetches_snoc. cbn. lia.
Qed.

(** For a user the EDM does not know yet, the payload built from the
    request is posted to [<base>/patients/], and once the EDM has accepted
    it the [id] of its answer is stored on the user, whatever becomes of
    the visit afterwards. *)
Theorem order_visit_stores_the_new_patient_id (req : OrderVisit.Request)
    (body : OrderVisit.Body) (w : World) (u : User) (rec : EdmAuth) (token : string)
    (latency st : Z) (txt : string) (fields : list (string * JsValue))
    (later : list (Z * FetchResult JsValue)) :
  OrderVisit.req_json req = Some body ->
  truthy_opt (OrderVisit.userId body) = true ->
  truthy_opt (OrderVisit.name body) = true ->
  truthy_opt (OrderVisit.surname body) = true ->
  List.find (fun x => String.eqb (user_id x) (default "" (OrderVisit.userId body)))
            (user w) = Some u ->
  truthy (externalPatientId u) = false ->
  most_recent (List.filter active (edmAuth w)) = Some rec ->
  still_valid rec (clock w) = true ->
  decryptToken (default "" (encryptedAccessToken rec)) = Return token ->
  edmApi w = (latency, Response st txt (Some (JObj fields))) :: later ->
  ok (mkResp st txt (Some (JObj fields))) = true ->
  js_get "id" fields <> JUndefined ->
  In (EvFetch (edm_base env +:+ "/patients/") (Some ("Bearer " +:+ token))
              (JsonBody
                 (OrderVisit.buildPatientPayload
                    (OrderVisit.mkPatientInput
                       (default "" (OrderVisit.name body))
                       (default "" (OrderVisit.surname body))
                       (OrderVisit.email body) (OrderVisit.pesel body)
                       (OrderVisit.date_of_birth body) (OrderVisit.telephone body)))))
     (trace (snd (OrderVisit.POST env isoDate req w)))
  /\ List.find (fun x => String.eqb (user_id x) (default "" (OrderVisit.userId body)))
               (user (snd (OrderVisit.POST env isoDate req w)))
     = Some (mkUser (user_id u) (js_get "id" fields)).
Proof.
  intros J U N S Fu P M V D A K I.
  destruct (update_user_found _ (js_get "id" fields) _ _ Fu) as (rows & Up & Fr).
  assert (E : truthy match externalPatientId u with JUndefined => JNull | v => v end = false)
    by (destruct (externalPatientId u); try reflexivity; exact P).
  open_order_visit. rewrite J, U, N, S. cbn [negb orb]. rewrite Fu. run. rewrite M. run.
  rewrite V, D. run. rewrite E. cbn [negb]. run. rewrite A. run. rewrite K. run.
  cbn [parse_or_raw json OrderVisit.member]. run. rewrite Up. run.
  assert (Fr' : find (fun x => String.eqb (user_id x) (default "" (OrderVisit.userId body)))
                     rows = Some (mkUser (user_id u) (js_get "id" fields))).
  { rewrite Fr. destruct (js_get "id" fields); try reflexivity. now destruct I. }
  destruct (OrderVisit.latest _) as [edmCfg|]; step;
    [destruct (negb _ || negb _); step;
       [|destruct later as [|[latency2 [m2 | st2 txt2 js2]] later2]; step;
           [| |destruct (ok (mkResp st2 txt2 js2)); step]]|];
    (split; [find_event | exact Fr']).
Qed.
End OrderVisitMore.

Lemma order_visit_checks_the_body_first_witness :
  @OrderVisit.POST demo_crypto demo_env epoch_day
    (OrderVisit.mkRequest
       (Some (OrderVisit.mkBody None (Some "Jan") (Some "Kowalski") None None None None None)))
    (clinic [live "cred-1"] [] [])
  = (mkNextResponse 400 (JObj [("error", JStr "userId is required")]),
     clinic [live "cred-1"] [] []).
Proof.
  refine (proj1 (@order_visit_checks_the_body_first demo_crypto demo_env epoch_day
                   (OrderVisit.mkRequest
                      (Some (OrderVisit.mkBody None (Some "Jan") (Some "Kowalski")
                                               None None None None None)))
                   (OrderVisit.mkBody None (Some "Jan") (Some "Kowalski")
                                      None None None None None)
                   (clinic [live "cred-1"] [] []) _) _);
    reflexivity.
Defined.

Lemma order_visit_looks_up_before_calling_witness :
  @OrderVisit.POST demo_crypto demo_env epoch_day
    (OrderVisit.mkRequest
       (Some (OrderVisit.mkBody (Some "nobody") (Some "Jan") (Some "Kowalski")
                                None None None None None)))
    (clinic [live "cred-1"] [] [])
  = (mkNextResponse 404 (JObj [("error", JStr "user_not_found")]),
     emit (EvFindFirst "user") (clinic [live "cred-1"] [] [])).
Proof.
  refine (proj1 (@order_visit_looks_up_before_calling demo_crypto demo_env epoch_day
                   (OrderVisit.mkRequest
                      (Some (OrderVisit.mkBody (Some "nobody") (Some "Jan") (Some "Kowalski")
                                               None None None None None)))
                   (OrderVisit.mkBody (Some "nobody") (Some "Jan") (Some "Kowalski")
                                      None None None None None)
                   (clinic [live "cred-1"] [] []) _ _ _ _) _);
    vm_compute; reflexivity.
Defined.

Lemma order_visit_books_for_known_patient_witness :
  fst (@OrderVisit.POST demo_crypto demo_env epoch_day visit_request
         (mkWorld [live "cred-1"] [mkUser "u1" (JNum 4711)]
                  [mkEdmDoctorDepartment (Some 5) (Some 9) 1] 1000000 7 []
                  [(90, Response 201 "{...}" (Some (JObj [("id", JNum 31)])))] []))
  = mkNextResponse 200
      (JObj [("ok", JBool true); ("patientId", JNum 4711);
             ("visit", JObj [("id", JNum 31)])]).
Proof.
  refine (proj1 (@order_visit_books_for_known_patient demo_crypto demo_env epoch_day
                   visit_request
                   (OrderVisit.mkBody (Some "u1") (Some "Jan") (Some "Kowalski") None
                                      (Some "44051401359") None None (Some "2026-01-15"))
                   (mkWorld [live "cred-1"] [mkUser "u1" (JNum 4711)]
                            [mkEdmDoctorDepartment (Some 5) (Some 9) 1] 1000000 7 []
                            [(90, Response 201 "{...}" (Some (JObj [("id", JNum 31)])))] [])
                   (mkUser "u1" (JNum 4711)) (live "cred-1") "live-access"
                   (mkEdmDoctorDepartment (Some 5) (Some 9) 1) 5 9
                   90 201 "{...}" (Some (JObj [("id", JNum 31)])) []
                   _ _ _ _ _ _ _ _ _ _ _ _ _ _ _ _));
    try (vm_compute; reflexivity); discriminate.
Defined.

Lemma order_visit_stores_the_new_patient_id_witness :
  List.find (fun x => String.eqb (user_id x) "u1")
    (user (snd (@OrderVisit.POST demo_crypto demo_env epoch_day visit_request
                  (clinic [live "cred-1"] []
                          [(90, Response 201 "{...}" (Some (JObj [("id", JNum 4711)])))]))))
  = Some (mkUser "u1" (JNum 4711)).
Proof.
  refine (proj2 (@order_visit_stores_the_new_patient_id demo_crypto demo_env epoch_day
                   visit_request
                   (OrderVisit.mkBody (Some "u1") (Some "Jan") (Some "Kowalski") None
                                      (Some "44051401359") None None (Some "2026-01-15"))
                   (clinic [live "cred-1"] []
                           [(90, Response 201 "{...}" (Some (JObj [("id", JNum 4711)])))])
                   (mkUser "u1" JNull) (live "cred-1") "live-access"
                   90 201 "{...}" [("id", JNum 4711)] []
                   _ _ _ _ _ _ _ _ _ _ _ _));
    try (vm_compute; reflexivity); discriminate.
Defined.
